(** * FilterMgr: the client-side filter manager of Tiny.Web3

    A shallow embedding of [filter.js] (class [FilterMgr] with its helpers
    [hexToInt], [intToHex], [intRange]) and of the three RPC primitives of
    [rpc.js] it calls, followed by the properties of the filter lifecycle:
    id assignment, cursors, range scans, expiry timers and error paths.
    The class [IdMapping] of [id_mapping.js] and [RPCServer.call] of
    [rpc.js], which uses it, are embedded in the modules [IdMapping] and
    [Rpc].

    Conventions of the embedding.
    - JavaScript values that flow through the manager are elements of
      [jsval]; a Number is an exact integer or NaN (-0 is identified
      with 0).  The heights and ids of a node stay far below 2^53, where
      doubles are exact; the properties of strings that a caller chooses
      carry the bound [MAX_SAFE_INTEGER] in their statement.
    - The three [Map]s of the manager are [gmap]s keyed by integers: the
      only keys ever [set] are filter ids, which are Numbers.  A lookup or
      a delete under any other key finds nothing.
    - A promise is represented by its settlement; an operation returns the
      final state, the settlement of the promise it hands back and the
      list of RPC requests it issued, in the order of issue: the call
      is answered before anything else runs.  What a callback does when
      its answer arrives after other operations is [EvLateAnswer] for
      runs and [_getBlocksForFilter_then] for a scan.
    - [setTimeout]/[clearTimeout] act on an explicit table of pending
      timeouts, together with a clock in milliseconds. *)

From Stdlib Require Import ZArith Strings.String Strings.Ascii List Bool Lia.
From Stdlib Require Import Numbers.DecimalString Numbers.HexadecimalString.
From Stdlib Require Numbers.HexadecimalPos Numbers.HexadecimalN.
From stdpp Require Import base option gmap fin_maps.

Local Open Scope string_scope.
Local Open Scope Z_scope.

(** ** JavaScript values *)

Module JS.

Inductive jsval : Type :=
| VUndefined
| VNum (z : Z)
| VNaN
| VStr (s : string).

Definition jsval_eqb (a b : jsval) : bool :=
  match a, b with
  | VUndefined, VUndefined => true
  | VNum x, VNum y => x =? y
  | VStr s, VStr t => String.eqb s t
  | _, _ => false
  end.

(** [a === b]: NaN is different from itself. *)
Definition strict_eq (a b : jsval) : bool := jsval_eqb a b.

(** ToBoolean. *)
Definition truthy (v : jsval) : bool :=
  match v with
  | VUndefined => false
  | VNum z => negb (z =? 0)
  | VNaN => false
  | VStr s => negb (String.eqb s "")
  end.

(** [a && b] where the right operand is only evaluated on a truthy left. *)
Definition js_and (a : jsval) (b : jsval -> jsval) : jsval :=
  if truthy a then b a else a.

(** *** Digits *)

Definition is_whitespace (c : ascii) : bool :=
  let n := N_of_ascii c in
  ((9 <=? n) && (n <=? 13) || (n =? 32))%N.

Definition digit_value (c : ascii) : option Z :=
  let n := Z.of_N (N_of_ascii c) in
  if (48 <=? n) && (n <=? 57) then Some (n - 48)
  else if (97 <=? n) && (n <=? 122) then Some (n - 87)
  else if (65 <=? n) && (n <=? 90) then Some (n - 55)
  else None.

(** The value of [c] as a digit in [radix], if it is one. *)
Definition radix_digit (radix : Z) (c : ascii) : option Z :=
  match digit_value c with
  | Some d => if d <? radix then Some d else None
  | None => None
  end.

Fixpoint skip_whitespace (s : string) : string :=
  match s with
  | String c s' => if is_whitespace c then skip_whitespace s' else s
  | EmptyString => s
  end.

(** Reads the longest prefix of digits of [s]; [acc] is the value read
    so far and [seen] tells whether a digit was read. *)
Fixpoint read_digits (radix : Z) (acc : Z) (seen : bool) (s : string) : option Z :=
  match s with
  | String c s' =>
      match radix_digit radix c with
      | Some d => read_digits radix (acc * radix + d) true s'
      | None => if seen then Some acc else None
      end
  | EmptyString => if seen then Some acc else None
  end.

Definition strip_sign (s : string) : Z * string :=
  match s with
  | String "-" s' => (-1, s')
  | String "+" s' => (1, s')
  | _ => (1, s)
  end.

Definition strip_hex_prefix (s : string) : string :=
  match s with
  | String "0" (String "x" s') => s'
  | String "0" (String "X" s') => s'
  | _ => s
  end.

(** [Number.parseInt(s, 16)] on a string: leading white space, a sign and
    an [0x] prefix are skipped, then the longest run of hexadecimal digits
    is read; no digit at all gives NaN. *)
Definition parseInt16 (s : string) : jsval :=
  let '(sign, s1) := strip_sign (skip_whitespace s) in
  match read_digits 16 0 false (strip_hex_prefix s1) with
  | Some n => VNum (sign * n)
  | None => VNaN
  end.

(** *** Printing numbers *)

(** [n.toString(10)] for an integer. *)
Definition dec_string (z : Z) : string :=
  DecimalString.NilZero.string_of_int (Z.to_int z).

(** [n.toString(16)] for an integer: lower-case digits, a minus sign for
    a negative number. *)
Definition hex_string (z : Z) : string :=
  let digits :=
    HexadecimalString.NilZero.string_of_uint (N.to_hex_uint (Z.abs_N z)) in
  if z <? 0 then "-" ++ digits else digits.

(** ToString. *)
Definition to_string (v : jsval) : string :=
  match v with
  | VUndefined => "undefined"
  | VNum z => dec_string z
  | VNaN => "NaN"
  | VStr s => s
  end.

(** *** Arithmetic and comparison *)

(** Reads an integer literal that must extend to the end of [s], trailing
    white space apart. *)
Fixpoint read_literal (radix : Z) (acc : Z) (seen : bool) (s : string) : option Z :=
  match s with
  | String c s' =>
      match radix_digit radix c with
      | Some d => read_literal radix (acc * radix + d) true s'
      | None =>
          if seen && String.eqb (skip_whitespace s) "" then Some acc else None
      end
  | EmptyString => if seen then Some acc else None
  end.

Definition of_literal (sign : Z) (o : option Z) : jsval :=
  match o with
  | Some n => VNum (sign * n)
  | None => VNaN
  end.

(** ToNumber on a string, for the integer literals: the empty or blank
    string is 0, a decimal literal may carry a sign, a hexadecimal one may
    not.  Literals that denote no integer (fractions, exponents,
    [Infinity]) have no value in this model of Number and give NaN. *)
Definition string_to_number (s : string) : jsval :=
  match skip_whitespace s with
  | EmptyString => VNum 0
  | String "0" (String "x" h) => of_literal 1 (read_literal 16 0 false h)
  | String "0" (String "X" h) => of_literal 1 (read_literal 16 0 false h)
  | t => let '(sign, d) := strip_sign t in of_literal sign (read_literal 10 0 false d)
  end.

(** ToNumber. *)
Definition to_number (v : jsval) : jsval :=
  match v with
  | VUndefined => VNaN
  | VNum z => VNum z
  | VNaN => VNaN
  | VStr s => string_to_number s
  end.

(** The abstract relational comparison [a < b]; [None] is its undefined
    result, when an operand converts to NaN. *)
Definition js_lt (a b : jsval) : option bool :=
  match a, b with
  | VStr s, VStr t => Some (String.ltb s t)
  | _, _ =>
      match to_number a, to_number b with
      | VNum x, VNum y => Some (x <? y)
      | _, _ => None
      end
  end.

(** [a > b] *)
Definition js_gt (a b : jsval) : bool :=
  match js_lt b a with Some r => r | None => false end.

(** [a >= b] *)
Definition js_ge (a b : jsval) : bool :=
  match js_lt a b with Some r => negb r | None => false end.

(** [a - b] *)
Definition js_sub (a b : jsval) : jsval :=
  match to_number a, to_number b with
  | VNum x, VNum y => VNum (x - y)
  | _, _ => VNaN
  end.

(** [a + b]: concatenation as soon as one operand is a string. *)
Definition js_add (a b : jsval) : jsval :=
  match a, b with
  | VStr _, _ | _, VStr _ => VStr (to_string a ++ to_string b)
  | _, _ =>
      match to_number a, to_number b with
      | VNum x, VNum y => VNum (x + y)
      | _, _ => VNaN
      end
  end.

(** *** Errors, completions and promises *)

Inductive error : Type :=
| Error (message : string)
| TypeError (message : string)
| RangeError (message : string).

(** The completion of a synchronous call. *)
Inductive completion (A : Type) : Type :=
| Return (a : A)
| Throw (e : error).
Arguments Return {A} a.
Arguments Throw {A} e.

(** A promise, by its settlement. *)
Inductive promise (A : Type) : Type :=
| Resolved (a : A)
| Rejected (e : error).
Arguments Resolved {A} a.
Arguments Rejected {A} e.

Definition is_rejected {A} (p : promise A) : bool :=
  match p with Rejected _ => true | Resolved _ => false end.

(** [p.then(f)]: an exception thrown by [f] rejects the derived promise. *)
Definition promise_then {A B} (p : promise A) (f : A -> completion B) : promise B :=
  match p with
  | Resolved a =>
      match f a with
      | Return b => Resolved b
      | Throw e => Rejected e
      end
  | Rejected e => Rejected e
  end.

(** [Promise.all(ps)]: the values in the order of [ps] when every promise
    resolves, the rejection of the first rejected one otherwise. *)
Fixpoint Promise_all {A} (ps : list (promise A)) : promise (list A) :=
  match ps with
  | nil => Resolved nil
  | Rejected e :: _ => Rejected e
  | Resolved a :: ps' =>
      match Promise_all ps' with
      | Resolved l => Resolved (a :: l)
      | Rejected e => Rejected e
      end
  end.

(** [xs.map(f)] with a callback that may throw. *)
Fixpoint map_throw {A B} (f : A -> completion B) (xs : list A) : completion (list B) :=
  match xs with
  | nil => Return nil
  | x :: xs' =>
      match f x with
      | Throw e => Throw e
      | Return b =>
          match map_throw f xs' with
          | Return l => Return (b :: l)
          | Throw e => Throw e
          end
      end
  end.

(** *** Maps keyed by filter ids

    [m.get(k)] and [m.delete(k)] for a key computed at run time: only a
    Number can hit an entry. *)
Definition Map_get {V} (m : gmap Z V) (k : jsval) : option V :=
  match k with
  | VNum z => m !! z
  | _ => None
  end.

Definition Map_delete {V} (m : gmap Z V) (k : jsval) : gmap Z V :=
  match k with
  | VNum z => delete z m
  | _ => m
  end.

End JS.

Import JS.

(** ** The helpers of [filter.js] *)

(** [const hexToInt = (hex) => hex && Number.parseInt(hex, 16)] *)
Definition hexToInt (hex : jsval) : jsval :=
  js_and hex (fun h => parseInt16 (to_string h)).

(** [int.toString(16)]: the radix only matters to a Number. *)
Definition toString16 (v : jsval) : string :=
  match v with
  | VNum z => hex_string z
  | _ => to_string v
  end.

(** [const intToHex = (int) => int && `0x${int.toString(16)}`] *)
Definition intToHex (int : jsval) : jsval :=
  js_and int (fun i => VStr ("0x" ++ toString16 i)).

(** [new Array(len)] for a Number [len], as the list of its indices: a
    length that is not an integer of [0, 2^32) is a RangeError. *)
Definition new_Array_indices (len : jsval) : completion (list Z) :=
  match len with
  | VNum n =>
      if (0 <=? n) && (n <? 2 ^ 32)
      then Return (map Z.of_nat (seq 0 (Z.to_nat n)))
      else Throw (RangeError "Invalid array length")
  | _ => Throw (RangeError "Invalid array length")
  end.

(** [[
const intRange = (from, to) => {
  if (from >= to) { return []; }
  return new Array(to - from).fill().map((_, i) => i + from);
};
]] *)
Definition intRange (from to : jsval) : completion (list jsval) :=
  if js_ge from to then Return nil
  else
    match new_Array_indices (js_sub to from) with
    | Return indices => Return (map (fun i => js_add (VNum i) from) indices)
    | Throw e => Throw e
    end.

(** ** Data of the manager *)

Definition topic := string.
Definition log := string.

(** A block as [eth_getBlockByNumber] returns it with [false] for the
    full-transaction flag. *)
Record block : Type := Block {
  hash : string;
  transactions : list string
}.

(** The [address] member of the parameter of [eth_newFilter]. *)
Inductive rawAddress : Type :=
| AddressUndefined
| AddressSingle (a : string)
| AddressArray (l : list string).

(** [payload.params[0]] of [eth_newFilter]; [None] is an absent member. *)
Record rawParams : Type := RawParams {
  p_fromBlock : option string;
  p_toBlock : option string;
  p_address : rawAddress;
  p_topics : option (list topic)
}.

(** The object built by [_normalizeFilter]; [o_addresses = None] is
    [null]. *)
Record logOptions : Type := LogOptions {
  o_fromBlock : jsval;
  o_toBlock : jsval;
  o_addresses : option (list string);
  o_topics : list topic
}.

(** The [options] member of a filter: the normalized object of a log
    filter, the string ['latest'] or ['pending'] of the two others. *)
Inductive filterOptions : Type :=
| OptObject (o : logOptions)
| OptString (s : string).

Inductive filterType : Type := TLog | TBlock | TTx.

(** A filter object [{ type, options, id }]. *)
Record filter : Type := Filter {
  f_type : filterType;
  f_options : filterOptions;
  f_id : Z
}.

(** Member reads on [options]; a string has none of the four members. *)
Definition opt_fromBlock (o : filterOptions) : jsval :=
  match o with OptObject r => o_fromBlock r | OptString _ => VUndefined end.

Definition opt_toBlock (o : filterOptions) : jsval :=
  match o with OptObject r => o_toBlock r | OptString _ => VUndefined end.

(** [filter.topics]; [None] is [undefined]. *)
Definition opt_topics (o : filterOptions) : option (list topic) :=
  match o with OptObject r => Some (o_topics r) | OptString _ => None end.

(** [filter.addresses] when it is truthy, that is, an array. *)
Definition opt_addresses_truthy (o : filterOptions) : option (list string) :=
  match o with OptObject r => o_addresses r | OptString _ => None end.

(** The parameter of [eth_getLogs].  [q_address] and [q_addresses] are
    the members [address] and [addresses], [None] when the object has no
    such member ([Some None] is [addresses: null]); [q_indexed] holds the
    indexed characters that [Object.assign] copies from a string source. *)
Record logQuery : Type := LogQuery {
  q_fromBlock : jsval;
  q_toBlock : jsval;
  q_topics : option (list topic);
  q_address : option (list string);
  q_addresses : option (option (list string));
  q_indexed : string
}.

(** ** The RPC server, as seen by one operation *)

Inductive rpc_call : Type :=
| GetBlockNumber
| GetBlockByNumber (number : jsval)
| GetFilterLogs (q : logQuery).

(** What the three methods of [RPCServer] answer while one operation of
    the manager runs.  [getBlockNumber] answers the [result] of
    [eth_blockNumber], a hexadecimal string; [getBlockByNumber] answers a
    block, or [null] ([None]) for a height the node does not have;
    [getFilterLogs] answers the log records. *)
Record RPCServer : Type := RPC {
  rpc_getBlockNumber : promise string;
  rpc_getBlockByNumber : jsval -> promise (option block);
  rpc_getFilterLogs : logQuery -> promise (list log)
}.

(** An element of the array a poll resolves to. *)
Inductive item : Type :=
| Hash (h : string)
| Transactions (txs : list string)
| Log (l : log).

(** ** State: the manager and the timers of the host *)

(** [filters], [blockNumbers] and [timers] are the three maps of the
    constructor.  [pending] is the host's table of timeouts that are set
    and neither cleared nor fired: a handle is mapped to the filter id
    its callback closes over and to the time it is due.  [next_handle] is
    the handle the next [setTimeout] returns. *)
Record state : Type := State {
  filters : gmap Z filter;
  blockNumbers : gmap Z string;
  timers : gmap Z positive;
  pending : gmap positive (Z * Z);
  next_handle : positive;
  clock : Z
}.

(** [this.timeoutInterval = 5 * 60 * 1000] *)
Definition timeoutInterval : Z := 5 * 60 * 1000.

(** [new FilterMgr(rpc)] on a host with no timeout set. *)
Definition init : state :=
  State ∅ ∅ ∅ ∅ 1%positive 0.

Definition with_filters (m : gmap Z filter) (st : state) : state :=
  State m (blockNumbers st) (timers st) (pending st) (next_handle st) (clock st).

Definition with_blockNumbers (m : gmap Z string) (st : state) : state :=
  State (filters st) m (timers st) (pending st) (next_handle st) (clock st).

Definition with_timers (m : gmap Z positive) (st : state) : state :=
  State (filters st) (blockNumbers st) m (pending st) (next_handle st) (clock st).

Definition with_pending (m : gmap positive (Z * Z)) (st : state) : state :=
  State (filters st) (blockNumbers st) (timers st) m (next_handle st) (clock st).

(** *** Timers *)

(** [clearTimeout(handle)] *)
Definition clearTimeout (handle : positive) (st : state) : state :=
  with_pending (delete handle (pending st)) st.

(** [setTimeout(() => {...filterId...}, delay)] *)
Definition setTimeout (filterId : Z) (delay : Z) (st : state) : state * positive :=
  let handle := next_handle st in
  (State (filters st) (blockNumbers st) (timers st)
         (<[handle := (filterId, clock st + delay)]> (pending st))
         (Pos.succ handle) (clock st),
   handle).

(** The callback of [_setupTimer]:
    [this.filters.delete(filterId); this.blockNumbers.delete(filterId);] *)
Definition timer_callback (filterId : Z) (st : state) : state :=
  with_blockNumbers (delete filterId (blockNumbers st))
    (with_filters (delete filterId (filters st)) st).

(** The host fires the timeout [handle]: nothing happens unless it is
    pending and due; otherwise it leaves the table and its callback
    runs. *)
Definition fire (handle : positive) (st : state) : state :=
  match pending st !! handle with
  | Some (filterId, due) =>
      if due <=? clock st
      then timer_callback filterId (with_pending (delete handle (pending st)) st)
      else st
  | None => st
  end.

(** Time passes. *)
Definition advance (dt : Z) (st : state) : state :=
  State (filters st) (blockNumbers st) (timers st) (pending st)
        (next_handle st) (clock st + Z.max 0 dt).

(** [[
_clearTimer(filterId) {
  const oldTimer = this.timers.get(filterId);
  if (oldTimer) { clearTimeout(oldTimer); }
}
]] *)
Definition _clearTimer (filterId : jsval) (st : state) : state :=
  match Map_get (timers st) filterId with
  | Some oldTimer => clearTimeout oldTimer st
  | None => st
  end.

(** [[
_setupTimer(filterId) {
  this._clearTimer(filterId);
  const newTimer = setTimeout(() => {
    this.filters.delete(filterId);
    this.blockNumbers.delete(filterId);
  }, this.timeoutInterval);
  this.timers.set(filterId, newTimer);
}
]] *)
Definition _setupTimer (filterId : Z) (st : state) : state :=
  let st1 := _clearTimer (VNum filterId) st in
  let '(st2, newTimer) := setTimeout filterId timeoutInterval st1 in
  with_timers (<[filterId := newTimer]> (timers st2)) st2.

(** [_getBlockNumber() { return this.rpc.getBlockNumber(); }] *)
Definition _getBlockNumber (rpc : RPCServer) : promise string :=
  rpc_getBlockNumber rpc.

(** [_getBlockByNumber(number) { return this.rpc.getBlockByNumber(number); }] *)
Definition _getBlockByNumber (rpc : RPCServer) (number : jsval) : promise (option block) :=
  rpc_getBlockByNumber rpc number.

(** ** Creating and removing filters *)

(** [this.filters.keys.length].  [keys] is not called: the expression
    reads the [length] of the method [Map.prototype.keys], which is the
    number of its formal parameters, 0, whatever the map holds. *)
Definition keys_length {V} (m : gmap Z V) : Z := 0.

(** [[
_installFilter(filter) {
  const count = this.filters.keys.length;
  const filterId = count + 1;
  filter.id = filterId;
  this.filters.set(filterId, filter);
  this._setupTimer(filterId);
  return filterId;
}
]] *)
Definition _installFilter (type : filterType) (options : filterOptions)
    (st : state) : state * Z :=
  let count := keys_length (filters st) in
  let filterId := count + 1 in
  let filter := Filter type options filterId in
  let st1 := with_filters (<[filterId := filter]> (filters st)) st in
  (_setupTimer filterId st1, filterId).

(** The callback the three creations chain on [_getBlockNumber()]:
    [[
(blockNumber) => {
  this.blockNumbers.set(filterId, blockNumber);
  return intToHex(filterId);
}
]] *)
Definition store_blockNumber (filterId : Z) (blockNumber : string)
    (st : state) : state * jsval :=
  (with_blockNumbers (<[filterId := blockNumber]> (blockNumbers st)) st,
   intToHex (VNum filterId)).

(** [this._getBlockNumber().then(callback)] for the callback above. *)
Definition then_store_blockNumber (filterId : Z) (rpc : RPCServer)
    (st : state) : state * promise jsval * list rpc_call :=
  match _getBlockNumber rpc with
  | Resolved blockNumber =>
      let '(st', r) := store_blockNumber filterId blockNumber st in
      (st', Resolved r, [GetBlockNumber])
  | Rejected e => (st, Rejected e, [GetBlockNumber])
  end.

(** [[
_normalizeFilterBlock(blockNumber) {
  if (undefined === blockNumber || blockNumber === 'latest' ||
      blockNumber === 'pending') { return 'latest'; }
  if (blockNumber === 'earliest') { return 0; }
  if (blockNumber.startsWith('0x')) { return hexToInt(blockNumber); }
  throw new Error(`Invalid block option: ${blockNumber}`);
}
]] *)
Definition _normalizeFilterBlock (blockNumber : option string) : completion jsval :=
  match blockNumber with
  | None => Return (VStr "latest")
  | Some s =>
      if String.eqb s "latest" || String.eqb s "pending" then Return (VStr "latest")
      else if String.eqb s "earliest" then Return (VNum 0)
      else if String.prefix "0x" s then Return (hexToInt (VStr s))
      else Throw (Error ("Invalid block option: " ++ s))
  end.

(** [[
_normalizeFilter(params) {
  return {
    fromBlock: this._normalizeFilterBlock(params.fromBlock),
    toBlock: this._normalizeFilterBlock(params.toBlock),
    addresses: undefined === params.address ? null
      : Array.isArray(params.address) ? params.address : [params.address],
    topics: params.topics || []
  };
}
]] *)
Definition _normalizeFilter (params : rawParams) : completion logOptions :=
  match _normalizeFilterBlock (p_fromBlock params) with
  | Throw e => Throw e
  | Return fromBlock =>
      match _normalizeFilterBlock (p_toBlock params) with
      | Throw e => Throw e
      | Return toBlock =>
          Return (LogOptions fromBlock toBlock
                    match p_address params with
                    | AddressUndefined => None
                    | AddressArray l => Some l
                    | AddressSingle a => Some [a]
                    end
                    match p_topics params with
                    | Some t => t
                    | None => []
                    end)
      end
  end.

(** [[
newFilter(payload) {
  const filter = { type: 'log',
                   options: this._normalizeFilter(payload.params[0]) };
  const filterId = this._installFilter(filter);
  return this._getBlockNumber().then((blockNumber) => {
    this.blockNumbers.set(filterId, blockNumber);
    return intToHex(filterId);
  });
}
]] *)
Definition newFilter (params : rawParams) (rpc : RPCServer) (st : state)
    : state * completion (promise jsval) * list rpc_call :=
  match _normalizeFilter params with
  | Throw e => (st, Throw e, [])
  | Return options =>
      let '(st1, filterId) := _installFilter TLog (OptObject options) st in
      let '(st2, p, calls) := then_store_blockNumber filterId rpc st1 in
      (st2, Return p, calls)
  end.

(** [newBlockFilter()]: [{ type: 'block', options: 'latest' }] *)
Definition newBlockFilter (rpc : RPCServer) (st : state)
    : state * promise jsval * list rpc_call :=
  let '(st1, filterId) := _installFilter TBlock (OptString "latest") st in
  then_store_blockNumber filterId rpc st1.

(** [newPendingTransactionFilter()]: [{ type: 'tx', options: 'pending' }] *)
Definition newPendingTransactionFilter (rpc : RPCServer) (st : state)
    : state * promise jsval * list rpc_call :=
  let '(st1, filterId) := _installFilter TTx (OptString "pending") st in
  then_store_blockNumber filterId rpc st1.

(** [[
uninstallFilter(filterId) {
  const id = hexToInt(filterId);
  this.filters.delete(id);
  this.blockNumbers.delete(id);
  this._clearTimer(id);
  return Promise.resolve(true);
}
]] *)
Definition uninstallFilter (filterId : jsval) (st : state) : state * promise bool :=
  let id := hexToInt filterId in
  let st1 := with_filters (Map_delete (filters st) id) st in
  let st2 := with_blockNumbers (Map_delete (blockNumbers st1) id) st1 in
  (_clearTimer id st2, Resolved true).

(** ** Polling *)

(** [Object.assign({}, filter, { fromBlock, toBlock })] *)
Definition assign_range (filter : filterOptions) (fromBlock toBlock : jsval) : logQuery :=
  match filter with
  | OptObject r =>
      LogQuery fromBlock toBlock (Some (o_topics r)) None (Some (o_addresses r)) ""
  | OptString s =>
      LogQuery fromBlock toBlock None None None s
  end.

Definition options_truthy (o : filterOptions) : bool :=
  match o with
  | OptObject _ => true
  | OptString s => truthy (VStr s)
  end.

(** [[
_getLogFilterChanges(filterId) {
  const filter = this.filters.get(filterId).options;
  const fromBlock = this.blockNumbers.get(filterId);
  if (!filter || !fromBlock) {
    return Promise.reject(new Error('_getLogFilterChanges: no filter found'));
  }
  return this._getBlockNumber().then((blockNumber) => {
    const toBlock = filter.toBlock === 'latest' ? blockNumber : filter.toBlock;
    const from = hexToInt(fromBlock);
    const to = hexToInt(toBlock);
    if (from > to) { return []; }
    return this.rpc.getFilterLogs(
      Object.assign({}, filter, { fromBlock, toBlock }));
  });
}
]] *)
Definition _getLogFilterChanges (filterId : Z) (rpc : RPCServer) (st : state)
    : state * completion (promise (list item)) * list rpc_call :=
  match filters st !! filterId with
  | None => (st, Throw (TypeError "Cannot read properties of undefined"), [])
  | Some f =>
      let filter := f_options f in
      match blockNumbers st !! filterId with
      | Some fromBlock =>
          if options_truthy filter && truthy (VStr fromBlock) then
            match _getBlockNumber rpc with
            | Rejected e => (st, Return (Rejected e), [GetBlockNumber])
            | Resolved blockNumber =>
                let toBlock :=
                  if strict_eq (opt_toBlock filter) (VStr "latest")
                  then VStr blockNumber else opt_toBlock filter in
                let from := hexToInt (VStr fromBlock) in
                let to := hexToInt toBlock in
                if js_gt from to then (st, Return (Resolved []), [GetBlockNumber])
                else
                  let q := assign_range filter (VStr fromBlock) toBlock in
                  (st,
                   Return (promise_then (rpc_getFilterLogs rpc q)
                             (fun logs => Return (map Log logs))),
                   [GetBlockNumber; GetFilterLogs q])
            end
          else
            (st, Return (Rejected (Error "_getLogFilterChanges: no filter found")), [])
      | None =>
          (st, Return (Rejected (Error "_getLogFilterChanges: no filter found")), [])
      end
  end.

(** [[
_getBlocksInRange(fromBlock, toBlock) {
  if (fromBlock >= toBlock) { return Promise.resolve([]); }
  return Promise.all(
    intRange(fromBlock, toBlock)
      .map(intToHex)
      .map(this._getBlockByNumber.bind(this)));
}
]] *)
Definition _getBlocksInRange (fromBlock toBlock : jsval) (rpc : RPCServer)
    : completion (promise (list (option block)) * list rpc_call) :=
  if js_ge fromBlock toBlock then Return (Resolved [], [])
  else
    match intRange fromBlock toBlock with
    | Throw e => Throw e
    | Return heights =>
        let numbers := map intToHex heights in
        Return (Promise_all (map (_getBlockByNumber rpc) numbers),
                map GetBlockByNumber numbers)
    end.

(** [[
_getBlocksForFilter(filterId) {
  const fromBlock = this.blockNumbers.get(filterId);
  if (!fromBlock) { return Promise.reject(new Error('no filter found')); }
  return this._getBlockNumber().then((toBlock) => {
    const from = hexToInt(fromBlock);
    const to = hexToInt(toBlock);
    if (to > from) { this.blockNumbers.set(filterId, toBlock); }
    return this._getBlocksInRange(from, to);
  });
}
]] *)
Definition _getBlocksForFilter (filterId : Z) (rpc : RPCServer) (st : state)
    : state * promise (list (option block)) * list rpc_call :=
  match blockNumbers st !! filterId with
  | Some fromBlock =>
      if truthy (VStr fromBlock) then
        match _getBlockNumber rpc with
        | Rejected e => (st, Rejected e, [GetBlockNumber])
        | Resolved toBlock =>
            let from := hexToInt (VStr fromBlock) in
            let to := hexToInt (VStr toBlock) in
            let st' :=
              if js_gt to from
              then with_blockNumbers (<[filterId := toBlock]> (blockNumbers st)) st
              else st in
            match _getBlocksInRange from to rpc with
            | Throw e => (st', Rejected e, [GetBlockNumber])
            | Return (p, calls) => (st', p, GetBlockNumber :: calls)
            end
        end
      else (st, Rejected (Error "no filter found"), [])
  | None => (st, Rejected (Error "no filter found"), [])
  end.

(** The callback that [_getBlocksForFilter] chains on
    [_getBlockNumber()], on its own:
    [[
(toBlock) => {
  const from = hexToInt(fromBlock);
  const to = hexToInt(toBlock);
  if (to > from) { this.blockNumbers.set(filterId, toBlock); }
  return this._getBlocksInRange(from, to);
}
]]
    [fromBlock] is the cursor the call read when it started; [st] is the
    state of the manager when the head [toBlock] arrives, which is the
    state the call started in unless other operations ran meanwhile. *)
Definition _getBlocksForFilter_then (filterId : Z) (fromBlock toBlock : string)
    (rpc : RPCServer) (st : state)
    : state * promise (list (option block)) * list rpc_call :=
  let from := hexToInt (VStr fromBlock) in
  let to := hexToInt (VStr toBlock) in
  let st' :=
    if js_gt to from
    then with_blockNumbers (<[filterId := toBlock]> (blockNumbers st)) st
    else st in
  match _getBlocksInRange from to rpc with
  | Throw e => (st', Rejected e, [])
  | Return (p, calls) => (st', p, calls)
  end.

(** A member read on a fetched block; [null] has no members. *)
Definition member {A} (get : block -> A) (b : option block) : completion A :=
  match b with
  | Some blk => Return (get blk)
  | None => Throw (TypeError "Cannot read properties of null")
  end.

(** [[
_getBlockFilterChanges(filterId) {
  return this._getBlocksForFilter(filterId).then((blocks) =>
    blocks.map((block) => block.hash));
}
]] *)
Definition _getBlockFilterChanges (filterId : Z) (rpc : RPCServer) (st : state)
    : state * promise (list item) * list rpc_call :=
  let '(st', p, calls) := _getBlocksForFilter filterId rpc st in
  (st', promise_then p (map_throw (fun b => member (fun blk => Hash (hash blk)) b)), calls).

(** [[
_getTxFilterChanges(filterId) {
  return this._getBlocksForFilter(filterId).then((blocks) =>
    blocks.map((block) => block.transactions));
}
]] *)
Definition _getTxFilterChanges (filterId : Z) (rpc : RPCServer) (st : state)
    : state * promise (list item) * list rpc_call :=
  let '(st', p, calls) := _getBlocksForFilter filterId rpc st in
  (st',
   promise_then p (map_throw (fun b => member (fun blk => Transactions (transactions blk)) b)),
   calls).

(** [[
getFilterChanges(filterId) {
  const id = hexToInt(filterId);
  const filter = this.filters.get(id);
  if (!filter) {
    return Promise.reject(new Error('getFilterChanges: no filter found'));
  }
  switch (filter.type) {
    case 'log':   return this._getLogFilterChanges(filter.id);
    case 'block': return this._getBlockFilterChanges(filter.id);
    case 'tx':    return this._getTxFilterChanges(filter.id);
    default:      return Promise.reject(new Error('unsupport filter type'));
  }
}
]]
    [filterType] has the three types the creations write, so the
    [default] branch has no counterpart. *)
Definition getFilterChanges (filterId : jsval) (rpc : RPCServer) (st : state)
    : state * completion (promise (list item)) * list rpc_call :=
  let id := hexToInt filterId in
  match Map_get (filters st) id with
  | None => (st, Return (Rejected (Error "getFilterChanges: no filter found")), [])
  | Some filter =>
      match f_type filter with
      | TLog => _getLogFilterChanges (f_id filter) rpc st
      | TBlock =>
          let '(st', p, calls) := _getBlockFilterChanges (f_id filter) rpc st in
          (st', Return p, calls)
      | TTx =>
          let '(st', p, calls) := _getTxFilterChanges (f_id filter) rpc st in
          (st', Return p, calls)
      end
  end.

(** ** Replaying a log filter *)

(** [[
_normalizeParamBlock(blockNumber) {
  return blockNumber === 'latest' ? blockNumber : intToHex(blockNumber);
}
]] *)
Definition _normalizeParamBlock (blockNumber : jsval) : jsval :=
  if strict_eq blockNumber (VStr "latest") then blockNumber else intToHex blockNumber.

(** [[
_normalizeParams(filter) {
  const params = {
    fromBlock: this._normalizeParamBlock(filter.fromBlock),
    toBlock: this._normalizeParamBlock(filter.toBlock),
    topics: filter.topics
  };
  if (filter.addresses) { params.address = filter.addresses; }
  return params;
}
]] *)
Definition _normalizeParams (filter : filterOptions) : logQuery :=
  LogQuery (_normalizeParamBlock (opt_fromBlock filter))
           (_normalizeParamBlock (opt_toBlock filter))
           (opt_topics filter)
           (opt_addresses_truthy filter)
           None
           "".

(** [[
getFilterLogs(filterId) {
  const filter = this.filters.get(hexToInt(filterId));
  if (!filter) { return Promise.reject(new Error('no filter found')); }
  return this.rpc.getFilterLogs(this._normalizeParams(filter.options));
}
]] *)
Definition getFilterLogs (filterId : jsval) (rpc : RPCServer) (st : state)
    : state * promise (list log) * list rpc_call :=
  match Map_get (filters st) (hexToInt filterId) with
  | None => (st, Rejected (Error "no filter found"), [])
  | Some filter =>
      let q := _normalizeParams (f_options filter) in
      (st, rpc_getFilterLogs rpc q, [GetFilterLogs q])
  end.

(** ** Runs of the manager

    An event is a call of the public interface, run to completion against
    what the RPC server answers meanwhile, or a move of the host: time
    passing, a timeout firing.  [EvLateAnswer] is the answer to
    [eth_blockNumber] reaching an operation that was started before
    other events: all that the callbacks chained on [_getBlockNumber()]
    ever write is [this.blockNumbers.set(filterId, blockNumber)]. *)
Inductive event : Type :=
| EvNewFilter (params : rawParams) (rpc : RPCServer)
| EvNewBlockFilter (rpc : RPCServer)
| EvNewPendingTransactionFilter (rpc : RPCServer)
| EvUninstallFilter (filterId : jsval)
| EvGetFilterChanges (filterId : jsval) (rpc : RPCServer)
| EvGetFilterLogs (filterId : jsval) (rpc : RPCServer)
| EvLateAnswer (filterId : Z) (blockNumber : string)
| EvAdvance (dt : Z)
| EvFire (handle : positive).

Definition step (ev : event) (st : state) : state :=
  match ev with
  | EvNewFilter params rpc => (newFilter params rpc st).1.1
  | EvNewBlockFilter rpc => (newBlockFilter rpc st).1.1
  | EvNewPendingTransactionFilter rpc => (newPendingTransactionFilter rpc st).1.1
  | EvUninstallFilter filterId => (uninstallFilter filterId st).1
  | EvGetFilterChanges filterId rpc => (getFilterChanges filterId rpc st).1.1
  | EvGetFilterLogs filterId rpc => (getFilterLogs filterId rpc st).1.1
  | EvLateAnswer filterId blockNumber => (store_blockNumber filterId blockNumber st).1
  | EvAdvance dt => advance dt st
  | EvFire handle => fire handle st
  end.

Definition run (evs : list event) (st : state) : state :=
  fold_left (fun s ev => step ev s) evs st.

(** The three creations of the public interface, under one type. *)
Inductive creation : Type :=
| CreateLog (params : rawParams)
| CreateBlock
| CreatePendingTx.

Definition create (c : creation) (rpc : RPCServer) (st : state)
    : state * completion (promise jsval) * list rpc_call :=
  match c with
  | CreateLog params => newFilter params rpc st
  | CreateBlock =>
      let '(st', p, calls) := newBlockFilter rpc st in (st', Return p, calls)
  | CreatePendingTx =>
      let '(st', p, calls) := newPendingTransactionFilter rpc st in (st', Return p, calls)
  end.

Definition creation_type (c : creation) : filterType :=
  match c with
  | CreateLog _ => TLog
  | CreateBlock => TBlock
  | CreatePendingTx => TTx
  end.

(** The creation gets past the normalization of its parameters. *)
Definition well_formed (c : creation) : bool :=
  match c with
  | CreateLog params =>
      match _normalizeFilter params with Return _ => true | Throw _ => false end
  | _ => true
  end.

(** ** [id_mapping.js]

    The table [intIds] maps the Number ids the class generated to the
    ids they stand for.  A payload is seen through its [id] member, the
    only one the class reads or writes; an id is a [jsval]: [undefined]
    when the payload has none, a Number or a string. *)
Module IdMapping.

(** [typeof v === 'number'] *)
Definition is_number (v : jsval) : bool :=
  match v with
  | VNum _ | VNaN => true
  | _ => false
  end.

(** [[
tryIntifyId(payload) {
  if (!payload.id) { payload.id = IdMapping.genId(); return; }
  if (typeof payload.id !== 'number') {
    const newId = IdMapping.genId();
    this.intIds.set(newId, payload.id);
    payload.id = newId;
  }
}
]]
    [genId] is the Number that [IdMapping.genId()], the clock plus a
    random offset, returns if it is called; the result is the table and
    the [id] of the payload afterwards. *)
Definition tryIntifyId (genId : Z) (id : jsval) (intIds : gmap Z jsval)
    : gmap Z jsval * jsval :=
  if negb (truthy id) then (intIds, VNum genId)
  else if negb (is_number id) then (<[genId := id]> intIds, VNum genId)
  else (intIds, id).

(** [[
tryPopId(id) {
  const originId = this.intIds.get(id);
  if (originId) { this.intIds.delete(id); }
  return originId;
}
]] *)
Definition tryPopId (id : jsval) (intIds : gmap Z jsval) : gmap Z jsval * jsval :=
  match Map_get intIds id with
  | Some originId =>
      if truthy originId then (Map_delete intIds id, originId) else (intIds, originId)
  | None => (intIds, VUndefined)
  end.

(** [[
tryRestoreId(payload) {
  const id = this.tryPopId(payload.id);
  if (id) { payload.id = id; }
}
]] *)
Definition tryRestoreId (id : jsval) (intIds : gmap Z jsval) : gmap Z jsval * jsval :=
  let '(intIds', originId) := tryPopId id intIds in
  (intIds', if truthy originId then originId else id).

(** Every id kept in the table is truthy. *)
Definition values_truthy (intIds : gmap Z jsval) : Prop :=
  ∀ k v, intIds !! k = Some v → truthy v = true.

End IdMapping.

(** ** [rpc.js]: [RPCServer.call] *)
Module Rpc.

(** The parsed body of a response, by what [call] and its users read of
    it.  [e_result] is the [result] member, [None] when the body has
    none; [R] is the type of the results, whatever the method.
    [e_error] is [None] when the [error] member is absent or falsy;
    for a truthy [error] it is its [message] member, [undefined] when it
    has none. *)
Record envelope (R : Type) : Type := Envelope {
  e_id : jsval;
  e_result : option R;
  e_error : option jsval
}.
Arguments Envelope {R} e_id e_result e_error.
Arguments e_id {R} e.
Arguments e_result {R} e.
Arguments e_error {R} e.

(** [!json.result], for results whose truth value is [R_truthy]. *)
Definition no_result {R} (R_truthy : R → bool) (json : envelope R) : bool :=
  match e_result json with
  | Some r => negb (R_truthy r)
  | None => true
  end.

(** [json.error.message || 'rpc error'], as the message of the [Error]. *)
Definition error_message (message : jsval) : string :=
  if truthy message then to_string message else "rpc error".

(** [[
call(payload) {
  this.idMapping.tryIntifyId(payload);
  return fetch(this.rpcUrl, {..., body: JSON.stringify(payload)})
    .then((response) => response.json())
    .then((json) => {
      if (!json.result && json.error) {
        throw new Error(json.error.message || 'rpc error');
      }
      this.idMapping.tryRestoreId(json);
      return json;
    });
}
]]
    [id] is the [id] of the payload; [fetch] is the body the node
    answers to a payload, given the id it was sent with, or the failure
    of the request.  The result is the table, the id the payload was
    sent with and the settlement of the promise. *)
Definition call {R} (R_truthy : R → bool) (genId : Z) (id : jsval)
    (fetch : jsval → promise (envelope R)) (intIds : gmap Z jsval)
    : gmap Z jsval * jsval * promise (envelope R) :=
  let '(intIds1, sent) := IdMapping.tryIntifyId genId id intIds in
  match fetch sent with
  | Rejected e => (intIds1, sent, Rejected e)
  | Resolved json =>
      match no_result R_truthy json, e_error json with
      | true, Some message => (intIds1, sent, Rejected (Error (error_message message)))
      | _, _ =>
          let '(intIds2, id') := IdMapping.tryRestoreId (e_id json) intIds1 in
          (intIds2, sent, Resolved (Envelope id' (e_result json) (e_error json)))
      end
  end.

(** [getBlockNumber()] and [getBlockByNumber(number)]: a call with a
    payload that has no id, then [(json) => json.result]. *)
Definition call_result {R} (R_truthy : R → bool) (genId : Z)
    (fetch : jsval → promise (envelope R)) (intIds : gmap Z jsval)
    : gmap Z jsval * promise (option R) :=
  let '(intIds', _, p) := call R_truthy genId VUndefined fetch intIds in
  (intIds', promise_then p (λ json, Return (e_result json))).

End Rpc.

(** ** Vocabulary of the properties *)

(** The filter [id] has an armed timer: the handle kept for it in
    [timers] is still pending on the host, and its callback is the one
    that deletes [id]. *)
Definition armed (st : state) (id : Z) : bool :=
  match timers st !! id with
  | Some handle =>
      match pending st !! handle with
      | Some (target, _) => bool_decide (target = id)
      | None => false
      end
  | None => false
  end.

(** The time at which the armed timer of [id] is due. *)
Definition due_time (st : state) (id : Z) : option Z :=
  match timers st !! id with
  | Some handle =>
      match pending st !! handle with
      | Some (target, due) => if bool_decide (target = id) then Some due else None
      | None => None
      end
  | None => None
  end.

(** The registry and the armed timers agree: a filter is registered
    exactly when its timer is armed, and every pending timeout is the
    timer that [timers] keeps for the filter it is to delete. *)
Definition timers_agree (st : state) : Prop :=
  (∀ id, is_Some (filters st !! id) ↔ armed st id = true) ∧
  (∀ handle id due, pending st !! handle = Some (id, due) → timers st !! id = Some handle).

(** The pending timeouts once the timer kept for [id] is cleared. *)
Definition cleared (st : state) (id : Z) : gmap positive (Z * Z) :=
  match timers st !! id with
  | Some old => delete old (pending st)
  | None => pending st
  end.

(** Two states with the same registry, timers and clock; the cursors may
    differ. *)
Definition same_timers (st' st : state) : Prop :=
  filters st' = filters st ∧ timers st' = timers st ∧
  pending st' = pending st ∧ next_handle st' = next_handle st ∧
  clock st' = clock st.

(** What holds of the timers in every state the manager reaches: on top
    of [timers_agree], handles are handed out in increasing order and no
    handle is kept for two filters. *)
Record inv (st : state) : Prop := Inv {
  inv_agree : ∀ id, is_Some (filters st !! id) ↔ armed st id = true;
  inv_owner : ∀ handle id due,
    pending st !! handle = Some (id, due) → timers st !! id = Some handle;
  inv_pending_fresh : ∀ handle,
    is_Some (pending st !! handle) → (handle < next_handle st)%positive;
  inv_timers_fresh : ∀ id handle,
    timers st !! id = Some handle → (handle < next_handle st)%positive;
  inv_timers_inj : ∀ id id' handle,
    timers st !! id = Some handle → timers st !! id' = Some handle → id = id'
}.

(** Events that neither create nor remove a filter. *)
Definition is_poll_or_wait (ev : event) : bool :=
  match ev with
  | EvGetFilterChanges _ _ | EvGetFilterLogs _ _ | EvLateAnswer _ _ | EvAdvance _ => true
  | _ => false
  end.

(** Events other than a late answer: calls that run to completion, and
    moves of the host. *)
Definition is_atomic (ev : event) : bool :=
  match ev with
  | EvLateAnswer _ _ => false
  | _ => true
  end.

(** [Number.MAX_SAFE_INTEGER]: up to it every integer is a double, so
    that the Number read from a string of digits is the integer the
    digits denote. *)
Definition MAX_SAFE_INTEGER : Z := 2 ^ 53 - 1.

(** The query [getFilterLogs] builds for a log filter. *)
Definition replay_query (o : logOptions) : logQuery :=
  LogQuery (_normalizeParamBlock (o_fromBlock o)) (_normalizeParamBlock (o_toBlock o))
           (Some (o_topics o)) (o_addresses o) None "".

(** The value of a sequence of hexadecimal digits read after [acc]. *)
Fixpoint uint_value (acc : Z) (d : Hexadecimal.uint) : Z :=
  match d with
  | Hexadecimal.Nil => acc
  | Hexadecimal.D0 l => uint_value (acc * 16 + 0) l
  | Hexadecimal.D1 l => uint_value (acc * 16 + 1) l
  | Hexadecimal.D2 l => uint_value (acc * 16 + 2) l
  | Hexadecimal.D3 l => uint_value (acc * 16 + 3) l
  | Hexadecimal.D4 l => uint_value (acc * 16 + 4) l
  | Hexadecimal.D5 l => uint_value (acc * 16 + 5) l
  | Hexadecimal.D6 l => uint_value (acc * 16 + 6) l
  | Hexadecimal.D7 l => uint_value (acc * 16 + 7) l
  | Hexadecimal.D8 l => uint_value (acc * 16 + 8) l
  | Hexadecimal.D9 l => uint_value (acc * 16 + 9) l
  | Hexadecimal.Da l => uint_value (acc * 16 + 10) l
  | Hexadecimal.Db l => uint_value (acc * 16 + 11) l
  | Hexadecimal.Dc l => uint_value (acc * 16 + 12) l
  | Hexadecimal.Dd l => uint_value (acc * 16 + 13) l
  | Hexadecimal.De l => uint_value (acc * 16 + 14) l
  | Hexadecimal.Df l => uint_value (acc * 16 + 15) l
  end.

(** The element a poll answers for a fetched block: its hash for a block
    filter, its transactions for a pending-transaction filter. *)
Definition item_of (type : filterType) (b : block) : item :=
  match type with
  | TTx => Transactions (transactions b)
  | _ => Hash (hash b)
  end.

(** A block option that [_normalizeFilterBlock] refuses: no sentinel and
    no [0x] in front. *)
Definition refused_option (s : string) : bool :=
  negb (String.eqb s "latest") && negb (String.eqb s "pending")
  && negb (String.eqb s "earliest") && negb (String.prefix "0x" s).

(** ** Nodes for the scenarios *)

(** A node whose head is [head], which has every block it is asked for
    (the hash and the transaction tell the number that was asked), and
    which finds one log per query, telling the range that was asked. *)
Definition node (head : string) : RPCServer :=
  RPC (Resolved head)
      (fun number =>
         Resolved (Some (Block ("block " ++ to_string number)
                               ["tx of " ++ to_string number])))
      (fun q =>
         Resolved ["log of " ++ to_string (q_fromBlock q) ++ ".."
                             ++ to_string (q_toBlock q)]).

(** The same node, failing to serve the block [missing]. *)
Definition node_without (head : string) (missing : jsval) : RPCServer :=
  RPC (Resolved head)
      (fun number =>
         if jsval_eqb number missing then Rejected (Error "rpc error")
         else rpc_getBlockByNumber (node head) number)
      (rpc_getFilterLogs (node head)).

(** The same node, answering [null] for the block [missing]. *)
Definition node_lacking (head : string) (missing : jsval) : RPCServer :=
  RPC (Resolved head)
      (fun number =>
         if jsval_eqb number missing then Resolved None
         else rpc_getBlockByNumber (node head) number)
      (rpc_getFilterLogs (node head)).

(** A node that does not answer. *)
Definition node_down : RPCServer :=
  RPC (Rejected (Error "rpc error"))
      (fun _ => Rejected (Error "rpc error"))
      (fun _ => Rejected (Error "rpc error")).

(** The manager after [newBlockFilter()] at head 100. *)
Definition block_filter_at_100 : state :=
  (newBlockFilter (node "0x64") init).1.1.

(** * Properties *)

(** Scenarios are settled by evaluation. *)
Ltac evaluate := vm_compute; repeat split; reflexivity.

Create HintDb filtermgr.

(** ** The helpers *)

Section Helpers.

Lemma hexToInt_string (s : string) :
  s ≠ "" → hexToInt (VStr s) = parseInt16 s.
Proof.
  intros Hs. unfold hexToInt, js_and. simpl.
  destruct (String.eqb_spec s ""); [contradiction | reflexivity].
Qed.

(** [hexToInt] of a string is the empty string itself, NaN or a Number:
    no other string reaches a comparison. *)
Lemma hexToInt_string_cases (s : string) :
  hexToInt (VStr s) = VStr "" ∨ hexToInt (VStr s) = VNaN ∨ ∃ n, hexToInt (VStr s) = VNum n.
Proof.
  unfold hexToInt, js_and. simpl.
  destruct (String.eqb_spec s "") as [-> | Hs]; simpl; [by left | right].
  unfold parseInt16. destruct (strip_sign _) as [sign s1].
  destruct (read_digits _ _ _ _); eauto.
Qed.

Lemma intToHex_positive (n : Z) :
  0 < n → intToHex (VNum n) = VStr ("0x" ++ hex_string n).
Proof.
  intros Hn. unfold intToHex, js_and. simpl.
  destruct (Z.eqb_spec n 0); [lia | reflexivity].
Qed.

(** The height 0 is not encoded: it is falsy and comes back as it is. *)
Lemma intToHex_0 : intToHex (VNum 0) = VNum 0.
Proof. reflexivity. Qed.

(** The id travels as [0x1] and comes back as 1. *)
Lemma hexToInt_0x1 : hexToInt (VStr "0x1") = VNum 1.
Proof. reflexivity. Qed.

Lemma read_digits_string_of_uint (d : Hexadecimal.uint) (acc : Z) :
  read_digits 16 acc true (HexadecimalString.NilEmpty.string_of_uint d)
  = Some (uint_value acc d).
Proof.
  revert acc. induction d; intros acc; simpl; [reflexivity | ..]; apply IHd.
Qed.

Lemma read_digits_nonnil (d : Hexadecimal.uint) :
  d ≠ Hexadecimal.Nil →
  read_digits 16 0 false (HexadecimalString.NilZero.string_of_uint d)
  = Some (uint_value 0 d).
Proof.
  destruct d; intros Hd; [contradiction | ..]; simpl;
    apply read_digits_string_of_uint.
Qed.

Lemma uint_value_acc (d : Hexadecimal.uint) (p : positive) :
  Z.pos (Pos.of_hex_uint_acc d p) = uint_value (Z.pos p) d.
Proof.
  revert p. induction d; intros p; simpl; [reflexivity | ..];
    rewrite IHd; f_equal; lia.
Qed.

Lemma uint_value_of_hex_uint (d : Hexadecimal.uint) :
  Z.of_N (Pos.of_hex_uint d) = uint_value 0 d.
Proof.
  induction d; simpl; [reflexivity | assumption | ..]; apply uint_value_acc.
Qed.

Lemma to_hex_uint_nonnil (n : N) : N.to_hex_uint n ≠ Hexadecimal.Nil.
Proof.
  destruct n as [| p]; [discriminate |].
  apply HexadecimalPos.Unsigned.to_uint_nonnil.
Qed.

Lemma parseInt16_0x (s : string) :
  parseInt16 ("0x" ++ s)
  = match read_digits 16 0 false s with Some n => VNum n | None => VNaN end.
Proof.
  unfold parseInt16. cbv [String.append]. simpl.
  destruct (read_digits 16 0 false s) as [n |]; [| reflexivity].
  f_equal. lia.
Qed.

(** Parsing the hexadecimal form of a natural number gives it back. *)
Lemma parseInt16_hex_string (n : Z) :
  0 ≤ n → parseInt16 ("0x" ++ hex_string n) = VNum n.
Proof.
  intros Hn. rewrite parseInt16_0x. unfold hex_string.
  destruct (Z.ltb_spec n 0); [lia |].
  rewrite read_digits_nonnil by apply to_hex_uint_nonnil.
  rewrite <- uint_value_of_hex_uint.
  change (Pos.of_hex_uint ?d) with (N.of_hex_uint d).
  rewrite HexadecimalN.Unsigned.of_to. f_equal. lia.
Qed.

Lemma hexToInt_hex_string (n : Z) :
  0 ≤ n → hexToInt (VStr ("0x" ++ hex_string n)) = VNum n.
Proof.
  intros Hn. rewrite hexToInt_string by (cbv [String.append]; discriminate).
  by apply parseInt16_hex_string.
Qed.

(** What [intToHex] writes, [hexToInt] reads back. *)
Lemma hexToInt_intToHex (n : Z) : 0 ≤ n → hexToInt (intToHex (VNum n)) = VNum n.
Proof.
  intros Hn. destruct (Z.eq_dec n 0) as [-> | Hne]; [reflexivity |].
  rewrite intToHex_positive by lia. apply hexToInt_hex_string. lia.
Qed.

(** [hexToInt] on a Number reads its decimal digits as hexadecimal. *)
Example hexToInt_of_number : hexToInt (VNum 16) = VNum 22.
Proof. reflexivity. Qed.

Lemma intRange_numbers (from to : Z) :
  from < to → to - from < 2 ^ 32 →
  intRange (VNum from) (VNum to) = Return (VNum <$> seqZ from (to - from)).
Proof.
  intros Hlt Hlen. unfold intRange, js_ge, js_sub, new_Array_indices. simpl.
  destruct (Z.ltb_spec from to) as [_ | ?]; [simpl | lia].
  destruct (Z.leb_spec 0 (to - from)) as [_ | ?]; [simpl | lia].
  destruct (Z.ltb_spec (to - from) (2 ^ 32)) as [_ | ?]; [simpl | lia].
  f_equal. unfold seqZ. rewrite <- !list_fmap_compose.
  apply list_fmap_ext. intros i x _. simpl. reflexivity.
Qed.

Lemma Promise_all_rejected {A} (ps : list (promise A)) (e : error) :
  Rejected e ∈ ps → ∃ e', Promise_all ps = Rejected e'.
Proof.
  induction ps as [| p ps IH]; intros Hin.
  - by apply elem_of_nil in Hin.
  - apply elem_of_cons in Hin. simpl. destruct p as [a | e0]; [| eauto].
    destruct Hin as [Heq | Hin]; [discriminate |].
    destruct (IH Hin) as [e' ->]. eauto.
Qed.

End Helpers.

(** ** Id assignment *)

Lemma _installFilter_id type options st :
  (_installFilter type options st).2 = 1.
Proof. reflexivity. Qed.

(** C4: every installation computes the id from
    [this.filters.keys.length], which is 0 for every registry, so every
    filter is installed under id 1.  On a manager that already holds a
    log filter, [newBlockFilter] answers the id [0x1] again and the
    registry then holds the block filter alone: the id of a live filter
    was reassigned. *)
Theorem C4_every_filter_gets_id_1 :
  (∀ type options st, (_installFilter type options st).2 = 1) ∧
  let first := newFilter (RawParams None None AddressUndefined None) (node "0x64") init in
  let second := newBlockFilter (node "0x64") first.1.1 in
  first.1.2 = Return (Resolved (VStr "0x1")) ∧
  f_type <$> filters first.1.1 !! 1 = Some TLog ∧
  second.1.2 = Resolved (VStr "0x1") ∧
  f_type <$> filters second.1.1 !! 1 = Some TBlock ∧
  size (filters second.1.1) = 1%nat.
Proof.
  split; [intros; apply _installFilter_id |]. evaluate.
Qed.

(** ** Scans of block and pending-transaction filters *)

Section Scans.

Variable rpc : RPCServer.

(** The scan between two heights asks for [from], [from + 1], ..,
    [to - 1], in this order, one request each. *)
Lemma _getBlocksInRange_requests (from to : Z) :
  from < to → to - from < 2 ^ 32 →
  ∃ p, _getBlocksInRange (VNum from) (VNum to) rpc
       = Return (p, (λ n, GetBlockByNumber (intToHex (VNum n))) <$> seqZ from (to - from)).
Proof.
  intros Hlt Hlen. unfold _getBlocksInRange, _getBlockByNumber.
  rewrite intRange_numbers by assumption.
  unfold js_ge. simpl. destruct (Z.ltb_spec from to) as [_ | ?]; [simpl | lia].
  eexists. f_equal. f_equal.
  rewrite <- !list_fmap_compose. reflexivity.
Qed.

(** When one height of the range cannot be fetched, the scan does not
    resolve: it rejects, or it already threw on the length of the range. *)
Lemma _getBlocksInRange_fails (from to n : Z) (e : error) :
  from ≤ n < to →
  rpc_getBlockByNumber rpc (intToHex (VNum n)) = Rejected e →
  match _getBlocksInRange (VNum from) (VNum to) rpc with
  | Return (p, _) => ∃ e', p = Rejected e'
  | Throw _ => True
  end.
Proof.
  intros Hn Hfetch.
  destruct (Z.lt_ge_cases (to - from) (2 ^ 32)) as [Hlen | Hlen].
  - unfold _getBlocksInRange, _getBlockByNumber. unfold js_ge. simpl.
    destruct (Z.ltb_spec from to) as [_ | ?]; [simpl | lia].
    rewrite intRange_numbers by lia.
    apply (Promise_all_rejected _ e).
    apply list_elem_of_fmap. exists (intToHex (VNum n)). split; [done |].
    apply list_elem_of_fmap. exists (VNum n). split; [done |].
    apply list_elem_of_fmap. exists n. split; [done |].
    apply elem_of_seqZ. lia.
  - unfold _getBlocksInRange, _getBlockByNumber, intRange, js_ge, js_sub, new_Array_indices. simpl.
    destruct (Z.ltb_spec from to) as [_ | ?]; [simpl | lia].
    destruct (Z.ltb_spec (to - from) (2 ^ 32)) as [? | _]; [lia |].
    rewrite andb_false_r. exact I.
Qed.

(** A scan with a head that is not above the cursor answers an empty
    list, fetches no block and leaves the state. *)
Lemma _getBlocksForFilter_no_new_block id c h from to st :
  blockNumbers st !! id = Some c → hexToInt (VStr c) = VNum from →
  rpc_getBlockNumber rpc = Resolved h → hexToInt (VStr h) = VNum to →
  to ≤ from →
  _getBlocksForFilter id rpc st = (st, Resolved [], [GetBlockNumber]).
Proof.
  intros Hc Hfrom Hh Hto Hle. unfold _getBlocksForFilter, _getBlockNumber.
  rewrite Hc, Hh. simpl.
  destruct (String.eqb_spec c "") as [-> | _]; [discriminate Hfrom | simpl].
  rewrite Hfrom, Hto. unfold js_gt, _getBlocksInRange, js_ge. simpl.
  destruct (Z.ltb_spec from to); [lia |]. reflexivity.
Qed.

(** A scan with a head above the cursor: the cursor is written as soon
    as the head is known, before any block is asked for, and nothing
    else changes, whatever the fetches answer. *)
Lemma _getBlocksForFilter_advances id c h from to st :
  blockNumbers st !! id = Some c → hexToInt (VStr c) = VNum from →
  rpc_getBlockNumber rpc = Resolved h → hexToInt (VStr h) = VNum to →
  from < to →
  (_getBlocksForFilter id rpc st).1.1
    = with_blockNumbers (<[id := h]> (blockNumbers st)) st ∧
  (_getBlocksForFilter id rpc st).1.2
    = match _getBlocksInRange (VNum from) (VNum to) rpc with
      | Return (p, _) => p
      | Throw e => Rejected e
      end ∧
  (_getBlocksForFilter id rpc st).2
    = GetBlockNumber :: match _getBlocksInRange (VNum from) (VNum to) rpc with
                        | Return (_, calls) => calls
                        | Throw _ => []
                        end.
Proof.
  intros Hc Hfrom Hh Hto Hlt. unfold _getBlocksForFilter, _getBlockNumber.
  rewrite Hc, Hh. simpl.
  destruct (String.eqb_spec c "") as [-> | _]; [discriminate Hfrom | simpl].
  rewrite Hfrom, Hto.
  assert (Hgt : js_gt (VNum to) (VNum from) = true).
  { unfold js_gt. simpl. destruct (Z.ltb_spec from to); [reflexivity | lia]. }
  rewrite Hgt.
  destruct (_getBlocksInRange _ _ _) as [[p calls] | e]; repeat split; reflexivity.
Qed.

(** The requests of a scan, for a cursor and a head in the hexadecimal
    form the manager itself writes: the blocks asked for are those at
    the cursor and above, up to one below the head. *)
Lemma _getBlocksForFilter_requests id (c h : Z) st :
  0 ≤ c < h → h - c < 2 ^ 32 →
  blockNumbers st !! id = Some ("0x" ++ hex_string c) →
  rpc_getBlockNumber rpc = Resolved ("0x" ++ hex_string h) →
  (_getBlocksForFilter id rpc st).2
    = GetBlockNumber :: ((λ n, GetBlockByNumber (intToHex (VNum n))) <$> seqZ c (h - c)) ∧
  blockNumbers (_getBlocksForFilter id rpc st).1.1 !! id = Some ("0x" ++ hex_string h).
Proof.
  intros Hch Hlen Hc Hh.
  destruct (_getBlocksForFilter_advances id _ _ c h st Hc
              (hexToInt_hex_string c ltac:(lia)) Hh (hexToInt_hex_string h ltac:(lia)))
    as (Hst & _ & Hcalls); [lia |].
  rewrite Hst, Hcalls.
  destruct (_getBlocksInRange_requests c h) as [p ->]; [lia | lia |].
  split; [reflexivity |]. simpl. apply lookup_insert_eq.
Qed.

End Scans.

(** C1: a block filter created at head 100 ([0x64]) and polled at head
    103 ([0x67]) asks the node for the blocks 100, 101 and 102, and
    answers their hashes; block 103 is not fetched, while the cursor is
    set to 103.  The scan starts at the cursor itself and stops one
    block below the head. *)
Theorem C1_block_poll_scans_from_cursor :
  let polled := getFilterChanges (VStr "0x1") (node "0x67") block_filter_at_100 in
  blockNumbers block_filter_at_100 !! 1 = Some "0x64" ∧
  polled.2 = [GetBlockNumber; GetBlockByNumber (VStr "0x64");
              GetBlockByNumber (VStr "0x65"); GetBlockByNumber (VStr "0x66")] ∧
  polled.1.2 = Return (Resolved [Hash "block 0x64"; Hash "block 0x65"; Hash "block 0x66"]) ∧
  blockNumbers polled.1.1 !! 1 = Some "0x67".
Proof. evaluate. Qed.

(** ** Polls of log filters *)

Lemma _getLogFilterChanges_state filterId rpc st :
  (_getLogFilterChanges filterId rpc st).1.1 = st.
Proof.
  unfold _getLogFilterChanges, _getBlockNumber.
  destruct (filters st !! filterId); [| reflexivity].
  destruct (blockNumbers st !! filterId); [| reflexivity].
  destruct (_ && _); [| reflexivity].
  destruct (rpc_getBlockNumber rpc); [| reflexivity].
  destruct (js_gt _ _); reflexivity.
Qed.

(** A log filter whose upper bound is "latest" and whose cursor is above
    the head answers an empty result without a log query. *)
Lemma _getLogFilterChanges_latest_inverted id f o c h from to rpc st :
  filters st !! id = Some f → f_options f = OptObject o → o_toBlock o = VStr "latest" →
  blockNumbers st !! id = Some c → hexToInt (VStr c) = VNum from →
  rpc_getBlockNumber rpc = Resolved h → hexToInt (VStr h) = VNum to →
  to < from →
  _getLogFilterChanges id rpc st = (st, Return (Resolved []), [GetBlockNumber]).
Proof.
  intros Hf Ho Hlatest Hc Hfrom Hh Hto Hlt. unfold _getLogFilterChanges, _getBlockNumber.
  rewrite Hf, Hc, Ho, Hh. simpl. rewrite Hlatest. simpl.
  destruct (String.eqb_spec c "") as [-> | _]; [discriminate Hfrom | simpl].
  rewrite Hfrom, Hto. unfold js_gt. simpl.
  destruct (Z.ltb_spec to from); [reflexivity | lia].
Qed.

(** C2: the poll of a log filter never writes the cursor: it leaves the
    whole state as it found it.  A log filter created at head [0x64] and
    polled at head [0x67] keeps the cursor [0x64]; a second poll at the
    same head sends the same query over [0x64..0x67] again and answers
    the same, non-empty, result. *)
Theorem C2_log_poll_keeps_cursor :
  (∀ filterId rpc st, (_getLogFilterChanges filterId rpc st).1.1 = st) ∧
  let created :=
    (newFilter (RawParams None None AddressUndefined None) (node "0x64") init).1.1 in
  let query := LogQuery (VStr "0x64") (VStr "0x67") (Some []) None (Some None) "" in
  let first := getFilterChanges (VStr "0x1") (node "0x67") created in
  let second := getFilterChanges (VStr "0x1") (node "0x67") first.1.1 in
  blockNumbers created !! 1 = Some "0x64" ∧
  first.2 = [GetBlockNumber; GetFilterLogs query] ∧
  first.1.2 = Return (Resolved [Log "log of 0x64..0x67"]) ∧
  blockNumbers first.1.1 !! 1 = Some "0x64" ∧
  second.2 = [GetBlockNumber; GetFilterLogs query] ∧
  second.1.2 = Return (Resolved [Log "log of 0x64..0x67"]) ∧
  blockNumbers second.1.1 !! 1 = Some "0x64".
Proof.
  split; [intros; apply _getLogFilterChanges_state |]. evaluate.
Qed.

(** C8: a log filter with the upper bound [0x10] (16) created at head
    [0x14] (20) has an inverted range, 16 < 20.  Its poll converts the
    stored Number 16 with [hexToInt] once more, which reads the decimal
    digits "16" as hexadecimal, 22; the test [from > to] is 20 > 22, and
    the log query is sent. *)
Theorem C8_inverted_log_range_is_queried :
  let created :=
    (newFilter (RawParams None (Some "0x10") AddressUndefined None) (node "0x14") init).1.1 in
  let polled := getFilterChanges (VStr "0x1") (node "0x14") created in
  (f_options <$> filters created !! 1)
    = Some (OptObject (LogOptions (VStr "latest") (VNum 16) None [])) ∧
  blockNumbers created !! 1 = Some "0x14" ∧
  hexToInt (VStr "0x14") = VNum 20 ∧
  hexToInt (VNum 16) = VNum 22 ∧
  polled.2 = [GetBlockNumber;
              GetFilterLogs (LogQuery (VStr "0x14") (VNum 16) (Some []) None (Some None) "")] ∧
  polled.1.2 = Return (Resolved [Log "log of 0x14..16"]) ∧
  blockNumbers polled.1.1 !! 1 = Some "0x14".
Proof. evaluate. Qed.

(** ** Validation of the parameters of [newFilter] *)

(** A block option that is neither a sentinel nor prefixed by [0x] is
    refused. *)
Lemma _normalizeFilterBlock_refused (s : string) :
  s ≠ "latest" → s ≠ "pending" → s ≠ "earliest" → String.prefix "0x" s = false →
  _normalizeFilterBlock (Some s) = Throw (Error ("Invalid block option: " ++ s)).
Proof.
  intros H1 H2 H3 H4. unfold _normalizeFilterBlock.
  destruct (String.eqb_spec s "latest"); [contradiction |].
  destruct (String.eqb_spec s "pending"); [contradiction |].
  destruct (String.eqb_spec s "earliest"); [contradiction |].
  simpl. rewrite H4. reflexivity.
Qed.

(** A block option prefixed by [0x] is accepted, whatever follows. *)
Lemma _normalizeFilterBlock_0x (s : string) :
  _normalizeFilterBlock (Some ("0x" ++ s)) = Return (parseInt16 ("0x" ++ s)).
Proof.
  unfold _normalizeFilterBlock. cbv [String.append]. simpl.
  replace (String.prefix "" s) with true by (by destruct s). reflexivity.
Qed.

Lemma _normalizeFilter_refused_fromBlock params e :
  _normalizeFilterBlock (p_fromBlock params) = Throw e →
  _normalizeFilter params = Throw e.
Proof. intros H. unfold _normalizeFilter. rewrite H. reflexivity. Qed.

Lemma _normalizeFilter_refused_toBlock params e :
  _normalizeFilterBlock (p_toBlock params) = Throw e →
  ∃ e', _normalizeFilter params = Throw e'.
Proof.
  intros H. unfold _normalizeFilter. rewrite H.
  destruct (_normalizeFilterBlock (p_fromBlock params)); eauto.
Qed.

(** A refusal happens before anything is installed: no state is
    written and no request is sent. *)
Lemma newFilter_refused params rpc st e :
  _normalizeFilter params = Throw e →
  newFilter params rpc st = (st, Throw e, []).
Proof. intros H. unfold newFilter. rewrite H. reflexivity. Qed.

(** C7: the block option [0xzz] passes the test on the prefix [0x] and is
    normalized to [hexToInt("0xzz")], which is NaN: nothing is thrown.
    [newFilter] resolves with the id [0x1]; the registry, empty before,
    holds the filter with [fromBlock] NaN, its cursor is stored and its
    timer is armed. *)
Theorem C7_unparsable_hex_is_accepted :
  let params := RawParams (Some "0xzz") None AddressUndefined None in
  let r := newFilter params (node "0x64") init in
  _normalizeFilterBlock (Some "0xzz") = Return VNaN ∧
  r.1.2 = Return (Resolved (VStr "0x1")) ∧
  size (filters init) = 0%nat ∧
  size (filters r.1.1) = 1%nat ∧
  filters r.1.1 !! 1
    = Some (Filter TLog (OptObject (LogOptions VNaN (VStr "latest") None [])) 1) ∧
  blockNumbers r.1.1 !! 1 = Some "0x64" ∧
  armed r.1.1 1 = true.
Proof. evaluate. Qed.

(** ** A failing fetch during a scan *)

Lemma promise_then_rejected {A B} (p : promise A) (f : A → completion B) e :
  p = Rejected e → promise_then p f = Rejected e.
Proof. intros ->. reflexivity. Qed.

(** The poll of a block or pending-transaction filter, in terms of the
    scan. *)
Lemma getFilterChanges_block_or_tx filterId id f rpc st :
  hexToInt filterId = VNum id →
  filters st !! id = Some f → f_type f ≠ TLog →
  (getFilterChanges filterId rpc st).1.1 = (_getBlocksForFilter (f_id f) rpc st).1.1 ∧
  (getFilterChanges filterId rpc st).2 = (_getBlocksForFilter (f_id f) rpc st).2 ∧
  ∃ k : list (option block) → completion (list item),
    k [] = Return [] ∧
    (getFilterChanges filterId rpc st).1.2
      = Return (promise_then (_getBlocksForFilter (f_id f) rpc st).1.2 k).
Proof.
  intros Hid Hf Hty. unfold getFilterChanges. rewrite Hid. simpl. rewrite Hf.
  destruct (f_type f); [contradiction | |].
  - unfold _getBlockFilterChanges.
    destruct (_getBlocksForFilter _ _ _) as [[st' p] calls]. simpl.
    repeat split. eexists. split; [| reflexivity]. reflexivity.
  - unfold _getTxFilterChanges.
    destruct (_getBlocksForFilter _ _ _) as [[st' p] calls]. simpl.
    repeat split. eexists. split; [| reflexivity]. reflexivity.
Qed.

(** C3 (as amended): when a block of the range cannot be fetched, the
    poll of a block or pending-transaction filter fails, and the cursor
    is the head that the poll read: the advance, made before the fetches,
    is not undone.  A retry at the same head finds nothing to scan. *)
Theorem C3_failed_scan_keeps_the_advance
    (filterId : jsval) (id : Z) (f : filter) (c h : string) (from to n : Z)
    (rpc : RPCServer) (st : state) (e : error) :
  hexToInt filterId = VNum id →
  filters st !! id = Some f → f_type f ≠ TLog → f_id f = id →
  blockNumbers st !! id = Some c → hexToInt (VStr c) = VNum from →
  rpc_getBlockNumber rpc = Resolved h → hexToInt (VStr h) = VNum to →
  from ≤ n < to →
  rpc_getBlockByNumber rpc (intToHex (VNum n)) = Rejected e →
  let failed := getFilterChanges filterId rpc st in
  let retry := getFilterChanges filterId rpc failed.1.1 in
  (∃ e', failed.1.2 = Return (Rejected e')) ∧
  blockNumbers failed.1.1 !! id = Some h ∧
  retry.1.2 = Return (Resolved []) ∧
  retry.2 = [GetBlockNumber].
Proof.
  intros Hid Hf Hty Hfid Hc Hfrom Hh Hto Hn Hfetch failed retry.
  destruct (getFilterChanges_block_or_tx filterId id f rpc st Hid Hf Hty)
    as (Hst & _ & k & _ & Hres).
  rewrite Hfid in Hst, Hres.
  destruct (_getBlocksForFilter_advances rpc id c h from to st Hc Hfrom Hh Hto)
    as (Hadv & Hp & _); [lia |].
  assert (Hfailed : failed.1.1 = with_blockNumbers (<[id := h]> (blockNumbers st)) st).
  { subst failed. rewrite Hst. exact Hadv. }
  split; [| split].
  - subst failed. rewrite Hres, Hp.
    pose proof (_getBlocksInRange_fails rpc from to n e Hn Hfetch) as Hfail.
    destruct (_getBlocksInRange _ _ _) as [[p calls] | e0].
    + destruct Hfail as [e' ->]. eauto.
    + eauto.
  - rewrite Hfailed. simpl. apply lookup_insert_eq.
  - assert (Hf' : filters failed.1.1 !! id = Some f) by (rewrite Hfailed; exact Hf).
    assert (Hc' : blockNumbers failed.1.1 !! id = Some h)
      by (rewrite Hfailed; simpl; apply lookup_insert_eq).
    destruct (getFilterChanges_block_or_tx filterId id f rpc failed.1.1 Hid Hf' Hty)
      as (_ & Hcalls & k' & Hk' & Hres').
    rewrite Hfid in Hcalls, Hres'.
    rewrite (_getBlocksForFilter_no_new_block rpc id h h to to failed.1.1) in Hcalls, Hres'
      by (assumption || lia).
    subst retry. rewrite Hcalls, Hres'. simpl. rewrite Hk'. split; reflexivity.
Qed.

(** C3, a block filter created at head [0x64] whose poll at head [0x67]
    cannot fetch block [0x65]: the poll is rejected and the cursor is
    [0x67]. *)
Lemma C3_failed_scan_witness :
  let rpc := node_without "0x67" (VStr "0x65") in
  let failed := getFilterChanges (VStr "0x1") rpc block_filter_at_100 in
  let retry := getFilterChanges (VStr "0x1") rpc failed.1.1 in
  (∃ e', failed.1.2 = Return (Rejected e')) ∧
  blockNumbers failed.1.1 !! 1 = Some "0x67" ∧
  retry.1.2 = Return (Resolved []) ∧
  retry.2 = [GetBlockNumber].
Proof.
  apply (C3_failed_scan_keeps_the_advance (VStr "0x1") 1
           (Filter TBlock (OptString "latest") 1) "0x64" "0x67" 100 103 101
           (node_without "0x67" (VStr "0x65")) _ (Error "rpc error"));
    try reflexivity; try discriminate; lia.
Defined.

(** C3 (as stated) fails: the poll below is rejected because block
    [0x65] cannot be fetched, and the cursor, [0x64] before the call, is
    [0x67] after it; the retry fetches no block at all. *)
Lemma C3_cursor_moves_on_failure :
  let rpc := node_without "0x67" (VStr "0x65") in
  let failed := getFilterChanges (VStr "0x1") rpc block_filter_at_100 in
  let retry := getFilterChanges (VStr "0x1") rpc failed.1.1 in
  failed.1.2 = Return (Rejected (Error "rpc error")) ∧
  blockNumbers block_filter_at_100 !! 1 = Some "0x64" ∧
  blockNumbers failed.1.1 !! 1 = Some "0x67" ∧
  blockNumbers failed.1.1 !! 1 ≠ blockNumbers block_filter_at_100 !! 1 ∧
  retry.2 = [GetBlockNumber].
Proof. vm_compute. repeat split; try reflexivity. discriminate. Qed.

(** ** The registry and the timers *)

Lemma armed_true st id :
  armed st id = true ↔
  ∃ handle due, timers st !! id = Some handle ∧ pending st !! handle = Some (id, due).
Proof.
  unfold armed. split.
  - destruct (timers st !! id) as [handle |]; [| discriminate].
    destruct (pending st !! handle) as [[target due] |] eqn:Hp; [| discriminate].
    intros Hd. apply bool_decide_eq_true in Hd. subst target. eauto.
  - intros (handle & due & -> & ->). by apply bool_decide_eq_true.
Qed.

Lemma lookup_cleared st id handle :
  cleared st id !! handle
  = if decide (timers st !! id = Some handle) then None else pending st !! handle.
Proof.
  unfold cleared. destruct (timers st !! id) as [old |] eqn:Ht.
  - destruct (decide (Some old = Some handle)) as [[= ->] | Hne].
    + apply lookup_delete_eq.
    + apply lookup_delete_ne. congruence.
  - destruct (decide (None = Some handle)); [discriminate | reflexivity].
Qed.

Lemma _clearTimer_number id st :
  _clearTimer (VNum id) st = with_pending (cleared st id) st.
Proof.
  unfold _clearTimer, cleared, clearTimeout. simpl.
  destruct (timers st !! id); [reflexivity | by destruct st].
Qed.

Lemma _setupTimer_state id st :
  _setupTimer id st
  = State (filters st) (blockNumbers st)
          (<[id := next_handle st]> (timers st))
          (<[next_handle st := (id, clock st + timeoutInterval)]> (cleared st id))
          (Pos.succ (next_handle st)) (clock st).
Proof. unfold _setupTimer. rewrite _clearTimer_number. reflexivity. Qed.

Lemma _installFilter_state type options st :
  (_installFilter type options st).1
  = State (<[1 := Filter type options 1]> (filters st)) (blockNumbers st)
          (<[1 := next_handle st]> (timers st))
          (<[next_handle st := (1, clock st + timeoutInterval)]> (cleared st 1))
          (Pos.succ (next_handle st)) (clock st).
Proof. unfold _installFilter. simpl. rewrite _setupTimer_state. reflexivity. Qed.

Lemma _installFilter_filters type options st :
  filters (_installFilter type options st).1
  = <[1 := Filter type options 1]> (filters st).
Proof. by rewrite _installFilter_state. Qed.

Lemma _installFilter_blockNumbers type options st :
  blockNumbers (_installFilter type options st).1 = blockNumbers st.
Proof. by rewrite _installFilter_state. Qed.

Lemma inv_init : inv init.
Proof.
  split; unfold init, armed; simpl.
  - intros id. rewrite !lookup_empty. split; [intros [? [=]] | discriminate].
  - intros handle id due. by rewrite lookup_empty.
  - intros handle. rewrite lookup_empty. by intros [? [=]].
  - intros id handle. by rewrite lookup_empty.
  - intros id id' handle. by rewrite lookup_empty.
Qed.

(** [inv] does not read the cursors nor the clock. *)
Lemma inv_same_timers st st' :
  filters st' = filters st → timers st' = timers st →
  pending st' = pending st → next_handle st' = next_handle st →
  inv st → inv st'.
Proof.
  intros Hf Ht Hp Hn [H1 H2 H3 H4 H5].
  split; unfold armed in *; rewrite ?Hf, ?Ht, ?Hp, ?Hn; assumption.
Qed.

Lemma inv_installed st id f bn due :
  inv st →
  inv (State (<[id := f]> (filters st)) bn
             (<[id := next_handle st]> (timers st))
             (<[next_handle st := (id, due)]> (cleared st id))
             (Pos.succ (next_handle st)) (clock st)).
Proof.
  intros [Hagree Howner Hpf Htf Hinj]. split; simpl.
  - intros j. rewrite armed_true. simpl.
    destruct (decide (j = id)) as [-> | Hne].
    + rewrite !lookup_insert_eq. split; [| eauto].
      intros _. exists (next_handle st), due. by rewrite lookup_insert_eq.
    + rewrite !lookup_insert_ne by done. rewrite Hagree, armed_true.
      split; intros (handle & d & Ht & Hp); exists handle, d; split; try done.
      * rewrite lookup_insert_ne by (apply Htf in Ht; lia).
        rewrite lookup_cleared. destruct (decide _) as [Hold |]; [| done].
        by destruct Hne; eapply Hinj.
      * rewrite lookup_insert_ne in Hp by (apply Htf in Ht; lia).
        rewrite lookup_cleared in Hp. by destruct (decide _).
  - intros handle j d. destruct (decide (handle = next_handle st)) as [-> | Hne].
    + rewrite lookup_insert_eq. intros [= <- <-]. apply lookup_insert_eq.
    + rewrite lookup_insert_ne by done. rewrite lookup_cleared.
      destruct (decide _) as [| Hold]; [done |]. intros Hp.
      pose proof (Howner _ _ _ Hp) as Ht.
      rewrite lookup_insert_ne; [done |]. intros <-. contradiction.
  - intros handle. destruct (decide (handle = next_handle st)) as [-> | Hne].
    + intros _. lia.
    + rewrite lookup_insert_ne by done. rewrite lookup_cleared.
      destruct (decide _); [by intros [? [=]] |].
      intros Hp. apply Hpf in Hp. lia.
  - intros j handle. destruct (decide (j = id)) as [-> | Hne].
    + rewrite lookup_insert_eq. intros [= <-]. lia.
    + rewrite lookup_insert_ne by done. intros Ht. apply Htf in Ht. lia.
  - intros j j' handle.
    destruct (decide (j = id)) as [-> | Hne], (decide (j' = id)) as [-> | Hne'];
      rewrite ?lookup_insert_eq, ?lookup_insert_ne by done; try done.
    + intros [= <-] Ht. apply Htf in Ht. lia.
    + intros Ht [= <-]. apply Htf in Ht. lia.
    + apply Hinj.
Qed.

Lemma inv_removed st id bn :
  inv st →
  inv (State (delete id (filters st)) bn (timers st) (cleared st id)
             (next_handle st) (clock st)).
Proof.
  intros [Hagree Howner Hpf Htf Hinj]. split; simpl; try assumption.
  - intros j. rewrite armed_true. simpl.
    destruct (decide (j = id)) as [-> | Hne].
    + rewrite lookup_delete_eq. split; [by intros [? [=]] |].
      intros (handle & d & Ht & Hp). rewrite lookup_cleared in Hp.
      by destruct (decide _).
    + rewrite lookup_delete_ne by done. rewrite Hagree, armed_true.
      split; intros (handle & d & Ht & Hp); exists handle, d; split; try done.
      * rewrite lookup_cleared. destruct (decide _) as [Hold |]; [| done].
        by destruct Hne; eapply Hinj.
      * rewrite lookup_cleared in Hp. by destruct (decide _).
  - intros handle j d. rewrite lookup_cleared.
    destruct (decide _); [done | apply Howner].
  - intros handle. rewrite lookup_cleared.
    destruct (decide _); [by intros [? [=]] | apply Hpf].
Qed.

Lemma same_timers_refl st : same_timers st st.
Proof. by repeat split. Qed.

#[local] Hint Resolve same_timers_refl inv_init : filtermgr.

Lemma same_timers_inv st' st : same_timers st' st → inv st → inv st'.
Proof. intros (Hf & Ht & Hp & Hn & _). by apply inv_same_timers. Qed.

Lemma _getBlocksForFilter_frame filterId rpc st :
  same_timers (_getBlocksForFilter filterId rpc st).1.1 st.
Proof.
  unfold _getBlocksForFilter, _getBlockNumber.
  destruct (blockNumbers st !! filterId) as [fromBlock |]; [| auto with filtermgr].
  destruct (truthy _); [| auto with filtermgr].
  destruct (rpc_getBlockNumber rpc) as [toBlock | e]; [| auto with filtermgr].
  destruct (js_gt _ _), (_getBlocksInRange _ _ _) as [[p calls] | e];
    by repeat split.
Qed.

(** A poll touches neither the registry nor any timer. *)
Lemma getFilterChanges_frame filterId rpc st :
  same_timers (getFilterChanges filterId rpc st).1.1 st.
Proof.
  unfold getFilterChanges.
  destruct (Map_get _ _) as [f |]; [| auto with filtermgr].
  destruct (f_type f).
  - rewrite _getLogFilterChanges_state. auto with filtermgr.
  - unfold _getBlockFilterChanges.
    pose proof (_getBlocksForFilter_frame (f_id f) rpc st) as H.
    by destruct (_getBlocksForFilter _ _ _) as [[st' p] calls].
  - unfold _getTxFilterChanges.
    pose proof (_getBlocksForFilter_frame (f_id f) rpc st) as H.
    by destruct (_getBlocksForFilter _ _ _) as [[st' p] calls].
Qed.

Lemma getFilterLogs_state filterId rpc st :
  (getFilterLogs filterId rpc st).1.1 = st.
Proof. unfold getFilterLogs. by destruct (Map_get _ _). Qed.

Lemma then_store_blockNumber_frame filterId rpc st :
  same_timers (then_store_blockNumber filterId rpc st).1.1 st.
Proof.
  unfold then_store_blockNumber, _getBlockNumber.
  destruct (rpc_getBlockNumber rpc); by repeat split.
Qed.

Lemma inv_then_store_blockNumber filterId rpc st :
  inv st → inv (then_store_blockNumber filterId rpc st).1.1.
Proof. apply same_timers_inv, then_store_blockNumber_frame. Qed.

Lemma inv__installFilter type options st :
  inv st → inv (_installFilter type options st).1.
Proof. intros H. rewrite _installFilter_state. by apply inv_installed. Qed.

Lemma inv_create c rpc st : inv st → inv (create c rpc st).1.1.
Proof.
  intros H. destruct c as [params | |]; simpl.
  - unfold newFilter. destruct (_normalizeFilter params) as [options | e]; [| done].
    pose proof (inv__installFilter TLog (OptObject options) st H) as H1.
    destruct (_installFilter _ _ _) as [st1 filterId].
    pose proof (inv_then_store_blockNumber filterId rpc st1 H1) as H2.
    by destruct (then_store_blockNumber _ _ _) as [[st2 p] calls].
  - unfold newBlockFilter.
    pose proof (inv__installFilter TBlock (OptString "latest") st H) as H1.
    destruct (_installFilter _ _ _) as [st1 filterId].
    pose proof (inv_then_store_blockNumber filterId rpc st1 H1) as H2.
    by destruct (then_store_blockNumber _ _ _) as [[st2 p] calls].
  - unfold newPendingTransactionFilter.
    pose proof (inv__installFilter TTx (OptString "pending") st H) as H1.
    destruct (_installFilter _ _ _) as [st1 filterId].
    pose proof (inv_then_store_blockNumber filterId rpc st1 H1) as H2.
    by destruct (then_store_blockNumber _ _ _) as [[st2 p] calls].
Qed.

Lemma uninstallFilter_number filterId id st :
  hexToInt filterId = VNum id →
  (uninstallFilter filterId st).1
  = State (delete id (filters st)) (delete id (blockNumbers st)) (timers st)
          (cleared st id) (next_handle st) (clock st).
Proof.
  intros Hid. unfold uninstallFilter. rewrite Hid. simpl.
  rewrite _clearTimer_number. reflexivity.
Qed.

Lemma uninstallFilter_other filterId st :
  (∀ id, hexToInt filterId ≠ VNum id) →
  (uninstallFilter filterId st).1 = st.
Proof.
  intros Hid. unfold uninstallFilter, _clearTimer.
  destruct (hexToInt filterId) as [| id | |]; simpl; try by destruct st.
  by destruct (Hid id).
Qed.

Lemma inv_uninstallFilter filterId st :
  inv st → inv (uninstallFilter filterId st).1.
Proof.
  intros H. destruct (hexToInt filterId) as [| id | |] eqn:Hid.
  2: { rewrite (uninstallFilter_number _ id) by done. by apply inv_removed. }
  all: rewrite uninstallFilter_other; [done | by rewrite Hid].
Qed.

Lemma fire_due handle id due st :
  inv st → pending st !! handle = Some (id, due) → due ≤ clock st →
  fire handle st
  = State (delete id (filters st)) (delete id (blockNumbers st)) (timers st)
          (cleared st id) (next_handle st) (clock st).
Proof.
  intros H Hp Hdue. unfold fire. rewrite Hp.
  destruct (Z.leb_spec due (clock st)); [| lia].
  unfold timer_callback, with_blockNumbers, with_filters, with_pending, cleared. simpl.
  by rewrite (inv_owner st H _ _ _ Hp).
Qed.

Lemma inv_fire handle st : inv st → inv (fire handle st).
Proof.
  intros H. destruct (pending st !! handle) as [[id due] |] eqn:Hp.
  - destruct (Z.le_gt_cases due (clock st)) as [Hdue | Hdue].
    + rewrite (fire_due handle id due) by done. by apply inv_removed.
    + unfold fire. rewrite Hp. destruct (Z.leb_spec due (clock st)); [lia | done].
  - unfold fire. by rewrite Hp.
Qed.

Lemma inv_step ev st : inv st → inv (step ev st).
Proof.
  intros H. destruct ev; simpl.
  - apply (inv_create (CreateLog params) rpc st H).
  - pose proof (inv_create CreateBlock rpc st H) as H'. simpl in H'.
    by destruct (newBlockFilter rpc st) as [[st' p] calls].
  - pose proof (inv_create CreatePendingTx rpc st H) as H'. simpl in H'.
    by destruct (newPendingTransactionFilter rpc st) as [[st' p] calls].
  - by apply inv_uninstallFilter.
  - eapply same_timers_inv; [apply getFilterChanges_frame | done].
  - by rewrite getFilterLogs_state.
  - eapply inv_same_timers; [.. | exact H]; reflexivity.
  - eapply inv_same_timers; [.. | exact H]; reflexivity.
  - by apply inv_fire.
Qed.

Lemma inv_run evs st : inv st → inv (run evs st).
Proof.
  revert st. induction evs as [| ev evs IH]; intros st H; [done |].
  simpl. apply IH. by apply inv_step.
Qed.

(** No operation deletes from [timers]: creations write the entry of the
    new id, everything else leaves the map as it is. *)
Lemma timers_uninstallFilter filterId st :
  timers (uninstallFilter filterId st).1 = timers st.
Proof.
  unfold uninstallFilter, _clearTimer.
  destruct (hexToInt filterId); simpl; try reflexivity.
  by destruct (timers st !! _).
Qed.

Lemma timers_fire handle st : timers (fire handle st) = timers st.
Proof.
  unfold fire. destruct (pending st !! handle) as [[id due] |]; [| done].
  by destruct (due <=? clock st).
Qed.

Lemma timers_create c rpc st :
  timers (create c rpc st).1.1 = timers st ∨
  timers (create c rpc st).1.1 = <[1 := next_handle st]> (timers st).
Proof.
  assert (Hinstall : ∀ type options st2 p calls,
            then_store_blockNumber (_installFilter type options st).2 rpc
              (_installFilter type options st).1 = (st2, p, calls) →
            timers st2 = <[1 := next_handle st]> (timers st)).
  { intros type options st2 p calls Heq.
    pose proof (then_store_blockNumber_frame
                  (_installFilter type options st).2 rpc
                  (_installFilter type options st).1) as (_ & Ht & _).
    rewrite Heq in Ht. cbn [fst] in Ht. rewrite Ht.
    by rewrite _installFilter_state. }
  destruct c as [params | |]; simpl.
  - unfold newFilter. destruct (_normalizeFilter params) as [options | e]; [| by left].
    right. specialize (Hinstall TLog (OptObject options)).
    destruct (_installFilter _ _ _) as [st1 filterId].
    destruct (then_store_blockNumber _ _ _) as [[st2 p] calls]. by eapply Hinstall.
  - right. unfold newBlockFilter. specialize (Hinstall TBlock (OptString "latest")).
    destruct (_installFilter _ _ _) as [st1 filterId].
    destruct (then_store_blockNumber _ _ _) as [[st2 p] calls]. by eapply Hinstall.
  - right. unfold newPendingTransactionFilter.
    specialize (Hinstall TTx (OptString "pending")).
    destruct (_installFilter _ _ _) as [st1 filterId].
    destruct (then_store_blockNumber _ _ _) as [[st2 p] calls]. by eapply Hinstall.
Qed.

Lemma timers_step ev st id :
  is_Some (timers st !! id) → is_Some (timers (step ev st) !! id).
Proof.
  intros H.
  assert (Hcreate : ∀ c rpc, is_Some (timers (create c rpc st).1.1 !! id)).
  { intros c rpc. destruct (timers_create c rpc st) as [-> | ->]; [done |].
    apply lookup_insert_is_Some. destruct (decide (1 = id)); auto. }
  destruct ev; cbn [step].
  - apply (Hcreate (CreateLog params) rpc).
  - specialize (Hcreate CreateBlock rpc). cbn [create] in Hcreate.
    by destruct (newBlockFilter rpc st) as [[st' p] calls].
  - specialize (Hcreate CreatePendingTx rpc). cbn [create] in Hcreate.
    by destruct (newPendingTransactionFilter rpc st) as [[st' p] calls].
  - by rewrite timers_uninstallFilter.
  - destruct (getFilterChanges_frame filterId rpc st) as (_ & -> & _). done.
  - by rewrite getFilterLogs_state.
  - done.
  - done.
  - by rewrite timers_fire.
Qed.

Lemma timers_run evs st id :
  is_Some (timers st !! id) → is_Some (timers (run evs st) !! id).
Proof.
  revert st. induction evs as [| ev evs IH]; intros st H; [done |].
  simpl. apply IH. by apply timers_step.
Qed.

(** C5 (as amended): in every state the manager reaches, a filter is in
    the registry exactly when its timer is armed, and every pending
    timeout is the timer of the filter it deletes.  [uninstallFilter]
    removes the registry entry and disarms the timer in one call, and so
    does a timer that fires.  The handle itself stays in [timers]: both
    deletions leave that map as it is, the fired handle included, and no
    entry of it is deleted by anything the manager does afterwards. *)
Theorem C5_registry_matches_armed_timers (evs : list event) :
  let st := run evs init in
  timers_agree st ∧
  (∀ filterId id, hexToInt filterId = VNum id →
     let st' := (uninstallFilter filterId st).1 in
     filters st' !! id = None ∧ armed st' id = false ∧ timers_agree st' ∧
     timers st' = timers st) ∧
  (∀ handle id due, pending st !! handle = Some (id, due) → due ≤ clock st →
     let st' := fire handle st in
     filters st' !! id = None ∧ armed st' id = false ∧
     pending st' !! handle = None ∧ timers_agree st' ∧
     timers st' = timers st ∧ timers st' !! id = Some handle) ∧
  (∀ id, is_Some (filters st !! id) → is_Some (timers st !! id)) ∧
  (∀ evs' id, is_Some (timers st !! id) → is_Some (timers (run evs' st) !! id)).
Proof.
  intros st. assert (H : inv st) by (apply inv_run; auto with filtermgr).
  assert (Hagree : ∀ s, inv s → timers_agree s).
  { intros s Hs. split; [apply (inv_agree s Hs) | apply (inv_owner s Hs)]. }
  assert (Hgone : ∀ s id, inv s → filters s !! id = None → armed s id = false).
  { intros s id Hs Hnone. destruct (armed s id) eqn:Ha; [| done].
    apply (inv_agree s Hs) in Ha. rewrite Hnone in Ha. by destruct Ha. }
  split; [by apply Hagree | split; [| split; [| split]]].
  - intros filterId id Hid st'.
    assert (H' : inv st') by by apply inv_uninstallFilter.
    assert (Hnone : filters st' !! id = None).
    { subst st'. rewrite (uninstallFilter_number _ id) by done. apply lookup_delete_eq. }
    repeat split; auto; try by apply Hagree.
    apply timers_uninstallFilter.
  - intros handle id due Hp Hdue st'.
    assert (H' : inv st') by by apply inv_fire.
    assert (Hnone : filters st' !! id = None).
    { subst st'. rewrite (fire_due handle id due) by done. apply lookup_delete_eq. }
    assert (Hkept : timers st' = timers st) by apply timers_fire.
    repeat split; auto; try by apply Hagree.
    + subst st'. rewrite (fire_due handle id due) by done. simpl.
      rewrite lookup_cleared, (inv_owner st H _ _ _ Hp). by destruct (decide _).
    + rewrite Hkept. by apply (inv_owner st H _ _ due).
  - intros id Hf. apply (inv_agree st H), armed_true in Hf.
    destruct Hf as (handle & due & Ht & _). by rewrite Ht.
  - intros evs' id. apply timers_run.
Qed.

(** C5, on the run that creates a block filter and lets five minutes
    pass: uninstalling the filter, or letting its timer fire, removes the
    filter and leaves no armed timer for it, while [timers] keeps the
    handle 1 under the id 1, also after a later uninstall. *)
Lemma C5_registry_matches_witness :
  let st := run [EvNewBlockFilter (node "0x64"); EvAdvance 300000] init in
  (filters (uninstallFilter (VStr "0x1") st).1 !! 1 = None ∧
   armed (uninstallFilter (VStr "0x1") st).1 1 = false ∧
   timers (uninstallFilter (VStr "0x1") st).1 = timers st) ∧
  (filters (fire 1 st) !! 1 = None ∧ armed (fire 1 st) 1 = false ∧
   timers (fire 1 st) !! 1 = Some 1%positive) ∧
  is_Some (timers (run [EvFire 1%positive; EvUninstallFilter (VStr "0x1")] st) !! 1).
Proof.
  intros st.
  destruct (C5_registry_matches_armed_timers
              [EvNewBlockFilter (node "0x64"); EvAdvance 300000])
    as (_ & Huninstall & Hfire & _ & Hkept).
  split; [| split].
  - destruct (Huninstall (VStr "0x1") 1 eq_refl) as (Hf & Ha & _ & Ht). by repeat split.
  - destruct (Hfire 1%positive 1 300000 eq_refl) as (Hf & Ha & _ & _ & _ & Ht).
    + vm_compute. discriminate.
    + by repeat split.
  - apply Hkept. vm_compute. eauto.
Defined.

(** C5 (as stated) fails on the timer entries: after [uninstallFilter],
    and after the expiry, the registry has no entry for the filter while
    [timers] still holds its handle; the two maps do not have the same
    keys. *)
Lemma C5_timer_entry_survives :
  let created := block_filter_at_100 in
  let removed := (uninstallFilter (VStr "0x1") created).1 in
  let expired := fire 1 (advance timeoutInterval created) in
  is_Some (filters created !! 1) ∧ timers created !! 1 = Some 1%positive ∧
  filters removed !! 1 = None ∧ timers removed !! 1 = Some 1%positive ∧
  filters expired !! 1 = None ∧ timers expired !! 1 = Some 1%positive ∧
  dom (filters removed) ≠ dom (timers removed) ∧
  dom (filters expired) ≠ dom (timers expired).
Proof.
  intros created removed expired.
  assert (Hfc : is_Some (filters created !! 1)) by (vm_compute; eauto).
  assert (Htc : timers created !! 1 = Some 1%positive) by (vm_compute; reflexivity).
  assert (Hfr : filters removed !! 1 = None) by (vm_compute; reflexivity).
  assert (Htr : timers removed !! 1 = Some 1%positive) by (vm_compute; reflexivity).
  assert (Hfe : filters expired !! 1 = None) by (vm_compute; reflexivity).
  assert (Hte : timers expired !! 1 = Some 1%positive) by (vm_compute; reflexivity).
  assert (Hkeys : ∀ st, filters st !! 1 = None → is_Some (timers st !! 1) →
                        dom (filters st) ≠ dom (timers st)).
  { intros st Hf Ht Hdom. apply not_elem_of_dom in Hf. apply Hf.
    rewrite Hdom. by apply elem_of_dom. }
  do 6 (split; [assumption |]). split; apply Hkeys; eauto.
Qed.

(** ** Expiry and polls *)

Lemma due_time_same st' st id :
  timers st' = timers st → pending st' = pending st → due_time st' id = due_time st id.
Proof. intros Ht Hp. unfold due_time. by rewrite Ht, Hp. Qed.

Lemma step_poll_or_wait ev st :
  is_poll_or_wait ev = true →
  timers (step ev st) = timers st ∧ pending (step ev st) = pending st ∧
  clock st ≤ clock (step ev st).
Proof.
  destruct ev; try discriminate; intros _; simpl.
  - destruct (getFilterChanges_frame filterId rpc st) as (_ & -> & -> & _ & ->).
    repeat split; lia.
  - rewrite getFilterLogs_state. repeat split; lia.
  - repeat split; lia.
  - repeat split; lia.
Qed.

Lemma run_polls_and_waits evs st :
  forallb is_poll_or_wait evs = true →
  timers (run evs st) = timers st ∧ pending (run evs st) = pending st ∧
  clock st ≤ clock (run evs st).
Proof.
  revert st. induction evs as [| ev evs IH]; intros st Hall; simpl.
  - repeat split; lia.
  - simpl in Hall. apply andb_true_iff in Hall as [Hev Hall].
    destruct (step_poll_or_wait ev st Hev) as (Ht & Hp & Hc).
    destruct (IH (step ev st) Hall) as (Ht' & Hp' & Hc').
    rewrite Ht', Hp', Ht, Hp. repeat split; lia.
Qed.

Lemma due_time__installFilter type options st :
  due_time (_installFilter type options st).1 1 = Some (clock st + timeoutInterval).
Proof.
  rewrite _installFilter_state. unfold due_time. simpl.
  rewrite !lookup_insert_eq. by rewrite bool_decide_eq_true_2.
Qed.

Lemma fire_deletes handle id due st :
  pending st !! handle = Some (id, due) → due ≤ clock st →
  filters (fire handle st) !! id = None.
Proof.
  intros Hp Hdue. unfold fire. rewrite Hp.
  destruct (Z.leb_spec due (clock st)); [| lia].
  simpl. apply lookup_delete_eq.
Qed.

(** C6 (as amended): no poll re-arms a timer: [getFilterChanges] leaves
    the registry, [timers] and the pending timeouts as they were.  The
    timer armed by the installation of a filter stays due 300000 ms
    after that installation through any sequence of polls and waits, and
    when it fires at or after that time the filter is deleted. *)
Theorem C6_polls_do_not_rearm :
  (∀ filterId rpc st, same_timers (getFilterChanges filterId rpc st).1.1 st) ∧
  (∀ type options st0 evs,
     forallb is_poll_or_wait evs = true →
     let st := run evs (_installFilter type options st0).1 in
     due_time st 1 = Some (clock st0 + 300000) ∧
     ∀ handle, timers st !! 1 = Some handle → clock st0 + 300000 ≤ clock st →
               filters (fire handle st) !! 1 = None).
Proof.
  split; [apply getFilterChanges_frame |].
  intros type options st0 evs Hall st.
  destruct (run_polls_and_waits evs (_installFilter type options st0).1 Hall)
    as (Ht & Hp & _).
  assert (Hdue : due_time st 1 = Some (clock st0 + 300000)).
  { subst st. rewrite (due_time_same _ _ 1 Ht Hp). apply due_time__installFilter. }
  split; [exact Hdue |].
  intros handle Hh Hlate. unfold due_time in Hdue. rewrite Hh in Hdue.
  destruct (pending st !! handle) as [[target due] |] eqn:Hpend; [| discriminate].
  destruct (bool_decide_reflect (target = 1)) as [-> |]; [| discriminate].
  injection Hdue as ->. by eapply fire_deletes.
Qed.

(** C6, on a block filter created at time 0, polled at 299999 and left
    alone until 300000: its timer is still due at 300000 and deletes
    it. *)
Lemma C6_polls_do_not_rearm_witness :
  let evs := [EvAdvance 299999; EvGetFilterChanges (VStr "0x1") (node "0x67");
              EvAdvance 1] in
  let st := run evs (_installFilter TBlock (OptString "latest") init).1 in
  due_time st 1 = Some 300000 ∧ filters (fire 1 st) !! 1 = None.
Proof.
  intros evs st.
  destruct C6_polls_do_not_rearm as [_ H].
  destruct (H TBlock (OptString "latest") init evs eq_refl) as [Hdue Hfire].
  split; [exact Hdue |].
  apply Hfire; [reflexivity |]. vm_compute. discriminate.
Defined.

(** C6 (as stated) fails: a block filter created at time 0 is polled,
    successfully, at time 299999; one millisecond later its timer, still
    due at 300000, fires and the filter is gone, far from a full window
    after the poll. *)
Lemma C6_polled_filter_expires :
  let created := block_filter_at_100 in
  let polled := getFilterChanges (VStr "0x1") (node "0x67") (advance 299999 created) in
  let later := fire 1 (advance 1 polled.1.1) in
  polled.1.2 = Return (Resolved [Hash "block 0x64"; Hash "block 0x65"; Hash "block 0x66"]) ∧
  clock polled.1.1 = 299999 ∧
  due_time created 1 = Some 300000 ∧
  due_time polled.1.1 1 = Some 300000 ∧
  clock later = 300000 ∧
  filters later !! 1 = None ∧
  (getFilterChanges (VStr "0x1") (node "0x67") later).1.2
    = Return (Rejected (Error "getFilterChanges: no filter found")).
Proof. evaluate. Qed.

(** ** Replay of a log filter *)

Lemma getFilterLogs_registered filterId id f o rpc st :
  hexToInt filterId = VNum id →
  filters st !! id = Some f → f_options f = OptObject o →
  getFilterLogs filterId rpc st
  = (st, rpc_getFilterLogs rpc (replay_query o), [GetFilterLogs (replay_query o)]).
Proof.
  intros Hid Hf Ho. unfold getFilterLogs. rewrite Hid. simpl. rewrite Hf, Ho.
  reflexivity.
Qed.

(** C9 (as amended): for a registered log filter, [getFilterLogs] sends
    exactly one log query, built from the stored [fromBlock] and
    [toBlock] alone: the cursors play no part and the head is not
    fetched.  A stored positive height is sent as its [0x] hexadecimal
    string, which [hexToInt] reads back as that height; the sentinel
    "latest" is sent as it is.  For an id that is
    not registered the call is rejected with "no filter found" and sends
    nothing. *)
Theorem C9_getFilterLogs_replays_stored_range
    (filterId : jsval) (rpc : RPCServer) (st : state) :
  (∀ id f o,
     hexToInt filterId = VNum id →
     filters st !! id = Some f → f_options f = OptObject o →
     getFilterLogs filterId rpc st
     = (st, rpc_getFilterLogs rpc (replay_query o), [GetFilterLogs (replay_query o)]) ∧
     ∀ cursors,
       getFilterLogs filterId rpc (with_blockNumbers cursors st)
       = (with_blockNumbers cursors st,
          rpc_getFilterLogs rpc (replay_query o),
          [GetFilterLogs (replay_query o)])) ∧
  (∀ n, 0 < n →
     _normalizeParamBlock (VNum n) = VStr ("0x" ++ hex_string n) ∧
     hexToInt (_normalizeParamBlock (VNum n)) = VNum n) ∧
  _normalizeParamBlock (VStr "latest") = VStr "latest" ∧
  (Map_get (filters st) (hexToInt filterId) = None →
   getFilterLogs filterId rpc st = (st, Rejected (Error "no filter found"), [])).
Proof.
  split; [| split; [| split]].
  - intros id f o Hid Hf Ho. split; [| intros cursors];
      by apply (getFilterLogs_registered filterId id f).
  - intros n Hn. unfold _normalizeParamBlock. simpl. split.
    + by apply intToHex_positive.
    + apply hexToInt_intToHex. lia.
  - reflexivity.
  - intros Hnone. unfold getFilterLogs. by rewrite Hnone.
Qed.

(** C9, on a log filter over [0x10..latest] whose cursor was moved to
    [0x99]: the replay asks for [0x10..latest]; the height 16 is sent as
    [0x10]; and on an empty registry the call is rejected. *)
Lemma C9_getFilterLogs_witness :
  let created :=
    (newFilter (RawParams (Some "0x10") None AddressUndefined None) (node "0x32") init).1.1 in
  let q := LogQuery (VStr "0x10") (VStr "latest") (Some []) None None "" in
  getFilterLogs (VStr "0x1") (node "0x40") (with_blockNumbers {[1 := "0x99"]} created)
    = (with_blockNumbers {[1 := "0x99"]} created,
       Resolved ["log of 0x10..latest"], [GetFilterLogs q]) ∧
  _normalizeParamBlock (VNum 16) = VStr "0x10" ∧
  hexToInt (_normalizeParamBlock (VNum 16)) = VNum 16 ∧
  getFilterLogs (VStr "0x1") (node "0x40") init
    = (init, Rejected (Error "no filter found"), []).
Proof.
  intros created q.
  destruct (C9_getFilterLogs_replays_stored_range (VStr "0x1") (node "0x40") created)
    as (Hreplay & Hhex & _ & _).
  destruct (C9_getFilterLogs_replays_stored_range (VStr "0x1") (node "0x40") init)
    as (_ & _ & _ & Hunknown).
  split; [| split; [| split]].
  - apply (Hreplay 1 (Filter TLog (OptObject (LogOptions (VNum 16) (VStr "latest") None [])) 1)
             (LogOptions (VNum 16) (VStr "latest") None [])); reflexivity.
  - apply (Hhex 16). lia.
  - apply (Hhex 16). lia.
  - apply Hunknown. reflexivity.
Defined.

(** C9 (as stated) fails: for the filter created with "earliest" and
    "latest" at head [0x32] (50), the replay sends the Number 0 for
    [fromBlock], not a hexadecimal string, and the literal "latest" for
    [toBlock], not the height [0x32]; the head is not asked for. *)
Lemma C9_replay_sends_raw_bounds :
  let created :=
    (newFilter (RawParams (Some "earliest") (Some "latest") AddressUndefined None)
               (node "0x32") init).1.1 in
  let replay := getFilterLogs (VStr "0x1") (node "0x32") created in
  replay.2 = [GetFilterLogs (LogQuery (VNum 0) (VStr "latest") (Some []) None None "")] ∧
  replay.2 ≠ [GetFilterLogs (LogQuery (VStr "0x0") (VStr "0x32") (Some []) None None "")] ∧
  (∀ q, In (GetFilterLogs q) replay.2 →
        (∀ s, q_fromBlock q ≠ VStr s) ∧ hexToInt (q_toBlock q) = VNaN) ∧
  ¬ In GetBlockNumber replay.2.
Proof.
  vm_compute. split; [reflexivity | split; [| split]].
  - discriminate.
  - intros q [[= <-] | []]. split; [discriminate | reflexivity].
  - intros [H | []]. discriminate H.
Qed.

(** ** A creation whose head fetch fails *)

Lemma then_store_blockNumber_rejected filterId rpc st e :
  rpc_getBlockNumber rpc = Rejected e →
  then_store_blockNumber filterId rpc st = (st, Rejected e, [GetBlockNumber]).
Proof. intros H. unfold then_store_blockNumber, _getBlockNumber. by rewrite H. Qed.

Lemma create_rejected c rpc st e :
  rpc_getBlockNumber rpc = Rejected e → well_formed c = true →
  ∃ options,
    create c rpc st
    = ((_installFilter (creation_type c) options st).1, Return (Rejected e), [GetBlockNumber]).
Proof.
  intros Hhead Hwf. destruct c as [params | |]; unfold create, creation_type.
  - unfold well_formed in Hwf. unfold newFilter.
    destruct (_normalizeFilter params) as [o | ?]; [| discriminate].
    exists (OptObject o). unfold _installFilter. cbv beta iota zeta.
    rewrite (then_store_blockNumber_rejected _ _ _ e Hhead). reflexivity.
  - exists (OptString "latest"). unfold newBlockFilter, _installFilter.
    cbv beta iota zeta.
    rewrite (then_store_blockNumber_rejected _ _ _ e Hhead). reflexivity.
  - exists (OptString "pending"). unfold newPendingTransactionFilter, _installFilter.
    cbv beta iota zeta.
    rewrite (then_store_blockNumber_rejected _ _ _ e Hhead). reflexivity.
Qed.

(** Without a cursor every poll of a registered filter is rejected on the
    spot. *)
Lemma getFilterChanges_without_cursor filterId id f rpc st :
  hexToInt filterId = VNum id →
  filters st !! id = Some f → f_id f = id → blockNumbers st !! id = None →
  ∃ e, getFilterChanges filterId rpc st = (st, Return (Rejected e), []).
Proof.
  intros Hid Hf Hfid Hnone. unfold getFilterChanges. rewrite Hid. simpl.
  rewrite Hf, Hfid. destruct (f_type f).
  - unfold _getLogFilterChanges, _getBlockNumber. rewrite Hf, Hnone. eauto.
  - unfold _getBlockFilterChanges, _getBlocksForFilter. rewrite Hnone. simpl. eauto.
  - unfold _getTxFilterChanges, _getBlocksForFilter. rewrite Hnone. simpl. eauto.
Qed.

(** When the head fetch of a creation fails, the promise is rejected
    with that failure, yet the filter is in the registry under id 1 with
    its timer armed for five minutes, and the creation has written no
    cursor: the cursors are those from before.  If no cursor was stored
    under id 1, every poll of the filter is rejected without any
    request, and leaves the state as it is; the timer deletes the filter
    once it is due. *)
Lemma failed_creation_leaves_filter
    (c : creation) (rpc : RPCServer) (st : state) (e : error) :
  rpc_getBlockNumber rpc = Rejected e →
  well_formed c = true →
  let r := create c rpc st in
  r.1.2 = Return (Rejected e) ∧
  (∃ f, filters r.1.1 !! 1 = Some f ∧ f_type f = creation_type c ∧ f_id f = 1) ∧
  armed r.1.1 1 = true ∧
  due_time r.1.1 1 = Some (clock st + timeoutInterval) ∧
  blockNumbers r.1.1 = blockNumbers st ∧
  (blockNumbers st !! 1 = None →
   ∀ rpc', ∃ e', getFilterChanges (VStr "0x1") rpc' r.1.1 = (r.1.1, Return (Rejected e'), [])) ∧
  (∀ handle, timers r.1.1 !! 1 = Some handle →
             filters (fire handle (advance timeoutInterval r.1.1)) !! 1 = None).
Proof.
  intros Hhead Hwf r.
  destruct (create_rejected c rpc st e Hhead Hwf) as [options Hr].
  subst r. rewrite Hr. cbn [fst snd].
  assert (Hf : filters (_installFilter (creation_type c) options st).1 !! 1
               = Some (Filter (creation_type c) options 1)).
  { rewrite _installFilter_filters. apply lookup_insert_eq. }
  assert (Hdue : due_time (_installFilter (creation_type c) options st).1 1
                 = Some (clock st + timeoutInterval)) by apply due_time__installFilter.
  split; [reflexivity | split; [eauto | split; [| split; [done | split; [| split]]]]].
  - unfold due_time in Hdue. unfold armed.
    destruct (timers _ !! 1) as [handle |]; [| discriminate].
    destruct (pending _ !! handle) as [[target due] |]; [| discriminate].
    by destruct (bool_decide _).
  - apply _installFilter_blockNumbers.
  - intros Hnone rpc'.
    apply (getFilterChanges_without_cursor _ 1 (Filter (creation_type c) options 1));
      try done.
    by rewrite _installFilter_blockNumbers.
  - intros handle Hh. unfold due_time in Hdue. rewrite Hh in Hdue.
    destruct (pending _ !! handle) as [[target due] |] eqn:Hp; [| discriminate].
    destruct (bool_decide_reflect (target = 1)) as [-> |]; [| discriminate].
    injection Hdue as ->.
    apply (fire_deletes handle 1 (clock st + timeoutInterval)); [exact Hp |].
    unfold advance. cbn [clock]. rewrite _installFilter_state. cbn [clock].
    unfold timeoutInterval. lia.
Qed.

(** On a fresh manager whose node is down, [newBlockFilter] leaves a
    block filter without a cursor, and its poll is rejected. *)
Example failed_creation_on_fresh_manager :
  let r := create CreateBlock node_down init in
  r.1.2 = Return (Rejected (Error "rpc error")) ∧
  (∃ f, filters r.1.1 !! 1 = Some f ∧ f_type f = TBlock ∧ f_id f = 1) ∧
  armed r.1.1 1 = true ∧
  blockNumbers r.1.1 = ∅ ∧
  (∃ e', getFilterChanges (VStr "0x1") (node "0x67") r.1.1 = (r.1.1, Return (Rejected e'), [])).
Proof.
  destruct (failed_creation_leaves_filter CreateBlock node_down init (Error "rpc error")
              eq_refl eq_refl) as (Hres & Hf & Ha & _ & Hb & Hpoll & _).
  repeat split; try assumption.
  apply Hpoll. reflexivity.
Qed.

(** C10: [newBlockFilter] with the node down, on a manager that created
    a block filter at head [0x64] before, is rejected and leaves a
    registered filter under id 1 with an armed timer, as claimed, but
    this filter has a cursor entry: the new filter was installed under
    the id of the earlier one, whose cursor [0x64] is still stored.  Its
    poll is not rejected for lack of a cursor; it scans from [0x64]. *)
Theorem C10_failed_creation_finds_stale_cursor :
  let second := newBlockFilter node_down block_filter_at_100 in
  let poll := getFilterChanges (VStr "0x1") (node "0x65") second.1.1 in
  blockNumbers block_filter_at_100 !! 1 = Some "0x64" ∧
  second.1.2 = Rejected (Error "rpc error") ∧
  filters second.1.1 !! 1 = Some (Filter TBlock (OptString "latest") 1) ∧
  armed second.1.1 1 = true ∧
  blockNumbers second.1.1 !! 1 = Some "0x64" ∧
  poll.2 = [GetBlockNumber; GetBlockByNumber (VStr "0x64")] ∧
  poll.1.2 = Return (Resolved [Hash "block 0x64"]).
Proof. evaluate. Qed.

(** * Further properties of the manager *)

(** ** Encoding of heights and ids *)

(** X1: [hexToInt] reads back every natural number up to
    [Number.MAX_SAFE_INTEGER] that [intToHex] wrote, 0 included (which
    [intToHex] leaves as the Number 0).  In the other direction
    [intToHex] writes the canonical string of what [hexToInt] read,
    lower-case digits without a leading zero: the string [intToHex]
    writes for a positive height comes back verbatim, any other spelling
    of that height comes back in the canonical one. *)
Theorem hex_round_trip (n : Z) :
  0 ≤ n ≤ MAX_SAFE_INTEGER →
  hexToInt (intToHex (VNum n)) = VNum n ∧
  (0 < n →
   intToHex (hexToInt (VStr ("0x" ++ hex_string n))) = VStr ("0x" ++ hex_string n)) ∧
  (∀ t, 0 < n → hexToInt (VStr ("0x" ++ t)) = VNum n →
     intToHex (hexToInt (VStr ("0x" ++ t))) = VStr ("0x" ++ hex_string n) ∧
     (intToHex (hexToInt (VStr ("0x" ++ t))) = VStr ("0x" ++ t) ↔ t = hex_string n)).
Proof.
  intros [Hn _]. split; [by apply hexToInt_intToHex | split].
  - intros Hpos. rewrite hexToInt_hex_string by lia. by apply intToHex_positive.
  - intros t Hpos ->. rewrite intToHex_positive by done.
    split; [reflexivity |]. split; [| by intros ->].
    intros Heq. by injection Heq.
Qed.

Lemma hex_round_trip_witness :
  hexToInt (intToHex (VNum 255)) = VNum 255 ∧
  intToHex (hexToInt (VStr "0xff")) = VStr "0xff" ∧
  intToHex (hexToInt (VStr "0xFF")) = VStr "0xff" ∧
  intToHex (hexToInt (VStr "0x0ff")) ≠ VStr "0x0ff".
Proof.
  assert (Hsafe : 0 ≤ 255 ≤ MAX_SAFE_INTEGER) by (vm_compute; split; discriminate).
  destruct (hex_round_trip 255 Hsafe) as (Hdecode & Hencode & Hother).
  split; [exact Hdecode | split; [apply Hencode; lia | split]].
  - apply (Hother "FF"); [lia | reflexivity].
  - intros Heq. apply (Hother "0ff") in Heq; [discriminate Heq | lia | reflexivity].
Defined.

(** X2: on integers, [intRange(from, to)] is the ascending list [from],
    [from + 1], .., [to - 1], empty when [from >= to]; it throws a
    RangeError when the range holds 2^32 heights or more. *)
Theorem intRange_integers (from to : Z) :
  (to - from < 2 ^ 32 →
   intRange (VNum from) (VNum to) = Return (VNum <$> seqZ from (to - from))) ∧
  (2 ^ 32 ≤ to - from →
   intRange (VNum from) (VNum to) = Throw (RangeError "Invalid array length")).
Proof.
  split; intros Hlen.
  - destruct (Z.lt_ge_cases from to) as [Hlt | Hge].
    + by apply intRange_numbers.
    + unfold intRange, js_ge. simpl.
      destruct (Z.ltb_spec from to); [lia |]. simpl.
      unfold seqZ. replace (Z.to_nat (to - from)) with 0%nat by lia. reflexivity.
  - unfold intRange, js_ge, js_sub, new_Array_indices. simpl.
    destruct (Z.ltb_spec from to); [simpl | lia].
    destruct (Z.ltb_spec (to - from) (2 ^ 32)); [lia |].
    by rewrite andb_false_r.
Qed.

Lemma intRange_integers_witness :
  intRange (VNum 5) (VNum 8) = Return [VNum 5; VNum 6; VNum 7] ∧
  intRange (VNum 8) (VNum 5) = Return [] ∧
  intRange (VNum 0) (VNum (2 ^ 32)) = Throw (RangeError "Invalid array length").
Proof.
  split; [| split].
  - apply (intRange_integers 5 8). reflexivity.
  - apply (intRange_integers 8 5). reflexivity.
  - apply (intRange_integers 0 (2 ^ 32)). vm_compute. discriminate.
Defined.

(** ** Scans, end to end *)

Lemma Promise_all_resolved {A B} (f : A → promise B) (g : A → B) (l : list A) :
  (∀ x, x ∈ l → f x = Resolved (g x)) →
  Promise_all (f <$> l) = Resolved (g <$> l).
Proof.
  induction l as [| x l IH]; intros Hall; [reflexivity |].
  csimpl. rewrite (Hall x) by apply list_elem_of_here.
  rewrite IH; [reflexivity |]. intros y Hy. apply Hall. by apply list_elem_of_further.
Qed.

Lemma map_throw_return {A B C} (f : B → completion C) (g : A → B) (k : A → C)
    (l : list A) :
  (∀ x, x ∈ l → f (g x) = Return (k x)) →
  map_throw f (g <$> l) = Return (k <$> l).
Proof.
  induction l as [| x l IH]; intros Hall; [reflexivity |].
  csimpl. rewrite (Hall x) by apply list_elem_of_here.
  rewrite IH; [reflexivity |]. intros y Hy. apply Hall. by apply list_elem_of_further.
Qed.

Lemma map_throw_throw {A B} (f : A → completion B) (e : error) (l : list A) :
  (∀ x e', f x = Throw e' → e' = e) →
  (∃ x, x ∈ l ∧ f x = Throw e) →
  map_throw f l = Throw e.
Proof.
  intros Hsame. induction l as [| y l IH]; intros (x & Hin & Hx).
  - by apply elem_of_nil in Hin.
  - simpl. destruct (f y) as [b | e'] eqn:Hy.
    + apply elem_of_cons in Hin as [-> | Hin]; [congruence |].
      rewrite IH; [reflexivity | eauto].
    + by rewrite (Hsame y e' Hy).
Qed.

(** The poll of a block or pending-transaction filter, in terms of the
    scan and of the member it reads on each block. *)
Lemma getFilterChanges_scan filterId id f rpc st :
  hexToInt filterId = VNum id →
  filters st !! id = Some f → f_type f ≠ TLog →
  getFilterChanges filterId rpc st
  = ((_getBlocksForFilter (f_id f) rpc st).1.1,
     Return (promise_then (_getBlocksForFilter (f_id f) rpc st).1.2
               (map_throw (member (item_of (f_type f))))),
     (_getBlocksForFilter (f_id f) rpc st).2).
Proof.
  intros Hid Hf Hty. unfold getFilterChanges. rewrite Hid. simpl. rewrite Hf.
  destruct (f_type f); [contradiction | |].
  - unfold _getBlockFilterChanges.
    by destruct (_getBlocksForFilter _ _ _) as [[st' p] calls].
  - unfold _getTxFilterChanges.
    by destruct (_getBlocksForFilter _ _ _) as [[st' p] calls].
Qed.

(** What a scan with the head above the cursor gives, when every block
    of the range is answered: [answer n] is what the node answers for
    the height [n], a block or [null]. *)
Lemma _getBlocksForFilter_answered id (c h : Z) (answer : Z → option block) rpc st :
  0 ≤ c < h → h - c < 2 ^ 32 →
  blockNumbers st !! id = Some ("0x" ++ hex_string c) →
  rpc_getBlockNumber rpc = Resolved ("0x" ++ hex_string h) →
  (∀ n, c ≤ n < h →
        rpc_getBlockByNumber rpc (intToHex (VNum n)) = Resolved (answer n)) →
  _getBlocksForFilter id rpc st
  = (with_blockNumbers (<[id := "0x" ++ hex_string h]> (blockNumbers st)) st,
     Resolved (answer <$> seqZ c (h - c)),
     GetBlockNumber :: ((λ n, GetBlockByNumber (intToHex (VNum n))) <$> seqZ c (h - c))).
Proof.
  intros Hch Hlen Hc Hh Hfetch.
  destruct (_getBlocksForFilter_advances rpc id _ _ c h st Hc
              (hexToInt_hex_string c ltac:(lia)) Hh (hexToInt_hex_string h ltac:(lia)))
    as (Hst & Hp & Hcalls); [lia |].
  destruct (_getBlocksForFilter id rpc st) as [[st' p] calls]. simpl in *.
  subst st' p calls.
  unfold _getBlocksInRange, _getBlockByNumber, js_ge. simpl.
  destruct (Z.ltb_spec c h); [simpl | lia].
  rewrite intRange_numbers by lia.
  rewrite <- !list_fmap_compose.
  rewrite (Promise_all_resolved _ answer); [reflexivity |].
  intros n Hn. apply elem_of_seqZ in Hn. simpl. apply Hfetch. lia.
Qed.

(** X3: the poll of a block or pending-transaction filter whose cursor
    is [c] and which reads the head [h > c], both in the [0x] form,
    first asks for the head, then for each height from [c] to [h - 1]
    in ascending order, once each.  When every block is served it
    resolves to one element per block in that order (the hash for a
    block filter, the transactions for a pending-transaction filter),
    and the cursor becomes [h]; nothing else changes. *)
Theorem scan_with_new_blocks
    (filterId : jsval) (id : Z) (f : filter) (c h : Z) (blk : Z → block)
    (rpc : RPCServer) (st : state) :
  hexToInt filterId = VNum id →
  filters st !! id = Some f → f_type f ≠ TLog → f_id f = id →
  0 ≤ c < h → h - c < 2 ^ 32 →
  blockNumbers st !! id = Some ("0x" ++ hex_string c) →
  rpc_getBlockNumber rpc = Resolved ("0x" ++ hex_string h) →
  (∀ n, c ≤ n < h →
        rpc_getBlockByNumber rpc (intToHex (VNum n)) = Resolved (Some (blk n))) →
  getFilterChanges filterId rpc st
  = (with_blockNumbers (<[id := "0x" ++ hex_string h]> (blockNumbers st)) st,
     Return (Resolved ((λ n, item_of (f_type f) (blk n)) <$> seqZ c (h - c))),
     GetBlockNumber :: ((λ n, GetBlockByNumber (intToHex (VNum n))) <$> seqZ c (h - c))).
Proof.
  intros Hid Hf Hty Hfid Hch Hlen Hc Hh Hfetch.
  rewrite (getFilterChanges_scan filterId id f) by done. rewrite Hfid.
  rewrite (_getBlocksForFilter_answered id c h (λ n, Some (blk n))) by done.
  simpl. by rewrite (map_throw_return _ _ (λ n, item_of (f_type f) (blk n))).
Qed.

(** X3, for the pending-transaction filter created at head 5 and polled
    at head 7. *)
Lemma scan_with_new_blocks_witness :
  let st := (newPendingTransactionFilter (node "0x5") init).1.1 in
  getFilterChanges (VStr "0x1") (node "0x7") st
  = (with_blockNumbers (<[1 := "0x7"]> (blockNumbers st)) st,
     Return (Resolved [Transactions ["tx of 0x5"]; Transactions ["tx of 0x6"]]),
     [GetBlockNumber; GetBlockByNumber (VStr "0x5"); GetBlockByNumber (VStr "0x6")]).
Proof.
  intros st.
  apply (scan_with_new_blocks (VStr "0x1") 1 (Filter TTx (OptString "pending") 1) 5 7
           (λ n, Block ("block " ++ to_string (intToHex (VNum n)))
                       ["tx of " ++ to_string (intToHex (VNum n))])
           (node "0x7") st);
    try reflexivity; try discriminate; lia.
Defined.

(** X4: when the node answers [null] for a height of the range (it does
    not have the block), and answers the others, the poll is rejected
    with a TypeError, raised by the member read on [null]; the cursor has
    moved to the head all the same. *)
Theorem scan_with_missing_block
    (filterId : jsval) (id : Z) (f : filter) (c h n : Z) (answer : Z → option block)
    (rpc : RPCServer) (st : state) :
  hexToInt filterId = VNum id →
  filters st !! id = Some f → f_type f ≠ TLog → f_id f = id →
  0 ≤ c < h → h - c < 2 ^ 32 →
  blockNumbers st !! id = Some ("0x" ++ hex_string c) →
  rpc_getBlockNumber rpc = Resolved ("0x" ++ hex_string h) →
  (∀ m, c ≤ m < h →
        rpc_getBlockByNumber rpc (intToHex (VNum m)) = Resolved (answer m)) →
  c ≤ n < h → answer n = None →
  let r := getFilterChanges filterId rpc st in
  r.1.2 = Return (Rejected (TypeError "Cannot read properties of null")) ∧
  blockNumbers r.1.1 !! id = Some ("0x" ++ hex_string h).
Proof.
  intros Hid Hf Hty Hfid Hch Hlen Hc Hh Hfetch Hn Hnone r. subst r.
  rewrite (getFilterChanges_scan filterId id f) by done. rewrite Hfid.
  rewrite (_getBlocksForFilter_answered id c h answer) by done.
  simpl. split; [| apply lookup_insert_eq].
  rewrite (map_throw_throw _ (TypeError "Cannot read properties of null")); [done | |].
  - intros [b |] e'; simpl; [discriminate | by intros [= <-]].
  - exists None. split; [| reflexivity].
    apply list_elem_of_fmap. exists n. split; [done |]. apply elem_of_seqZ. lia.
Qed.

(** X4, for the block filter created at head 100 and polled at head 103
    on a node that lacks block 101. *)
Lemma scan_with_missing_block_witness :
  let r := getFilterChanges (VStr "0x1") (node_lacking "0x67" (VStr "0x65"))
             block_filter_at_100 in
  r.1.2 = Return (Rejected (TypeError "Cannot read properties of null")) ∧
  blockNumbers r.1.1 !! 1 = Some "0x67".
Proof.
  apply (scan_with_missing_block (VStr "0x1") 1 (Filter TBlock (OptString "latest") 1)
           100 103 101
           (λ n, if n =? 101 then None
                 else Some (Block ("block " ++ to_string (intToHex (VNum n)))
                                  ["tx of " ++ to_string (intToHex (VNum n))]))
           (node_lacking "0x67" (VStr "0x65")) block_filter_at_100);
    try reflexivity; try discriminate; try lia.
  intros m Hm.
  assert (m = 100 ∨ m = 101 ∨ m = 102) as [-> | [-> | ->]] by lia; reflexivity.
Defined.

(** ** Cursors *)

(** The state a scan leaves: the one it found, or that state with the
    cursor of the filter moved to a head above it. *)
Lemma _getBlocksForFilter_cursor id rpc st :
  (_getBlocksForFilter id rpc st).1.1 = st ∨
  ∃ c h, blockNumbers st !! id = Some c ∧ rpc_getBlockNumber rpc = Resolved h ∧
         js_gt (hexToInt (VStr h)) (hexToInt (VStr c)) = true ∧
         (_getBlocksForFilter id rpc st).1.1
         = with_blockNumbers (<[id := h]> (blockNumbers st)) st.
Proof.
  unfold _getBlocksForFilter, _getBlockNumber.
  destruct (blockNumbers st !! id) as [c |] eqn:Hc; [| by left].
  destruct (truthy _); [| by left].
  destruct (rpc_getBlockNumber rpc) as [h | e] eqn:Hh; [| by left].
  destruct (js_gt _ _) eqn:Hgt.
  - right. exists c, h. repeat split; try done.
    by destruct (_getBlocksInRange _ _ _) as [[p calls] | e].
  - left. by destruct (_getBlocksInRange _ _ _) as [[p calls] | e].
Qed.

Lemma getFilterChanges_cursor (filterId : jsval) (rpc : RPCServer) (st : state) (j : Z) :
  let st' := (getFilterChanges filterId rpc st).1.1 in
  blockNumbers st' !! j = blockNumbers st !! j ∨
  ∃ c h, blockNumbers st !! j = Some c ∧ blockNumbers st' !! j = Some h ∧
         rpc_getBlockNumber rpc = Resolved h ∧
         js_gt (hexToInt (VStr h)) (hexToInt (VStr c)) = true.
Proof.
  intros st'. subst st'. unfold getFilterChanges.
  destruct (Map_get _ _) as [f |]; [| by left].
  assert (Hscan : ∀ st1, st1 = (_getBlocksForFilter (f_id f) rpc st).1.1 →
            blockNumbers st1 !! j = blockNumbers st !! j ∨
            ∃ c h, blockNumbers st !! j = Some c ∧ blockNumbers st1 !! j = Some h ∧
                   rpc_getBlockNumber rpc = Resolved h ∧
                   js_gt (hexToInt (VStr h)) (hexToInt (VStr c)) = true).
  { intros st1 ->.
    destruct (_getBlocksForFilter_cursor (f_id f) rpc st)
      as [-> | (c & h & Hc & Hh & Hgt & ->)]; [by left |].
    simpl. destruct (decide (j = f_id f)) as [-> | Hne].
    - right. exists c, h. by rewrite lookup_insert_eq.
    - left. by rewrite lookup_insert_ne. }
  destruct (f_type f).
  - rewrite _getLogFilterChanges_state. by left.
  - unfold _getBlockFilterChanges. apply Hscan.
    by destruct (_getBlocksForFilter _ _ _) as [[st1 p] calls].
  - unfold _getTxFilterChanges. apply Hscan.
    by destruct (_getBlocksForFilter _ _ _) as [[st1 p] calls].
Qed.

(** A scan is the reading of the cursor followed by the callback, run in
    the state the scan started in. *)
Lemma _getBlocksForFilter_split id c h rpc st :
  blockNumbers st !! id = Some c → c ≠ "" →
  rpc_getBlockNumber rpc = Resolved h →
  let r := _getBlocksForFilter_then id c h rpc st in
  _getBlocksForFilter id rpc st = (r.1.1, r.1.2, GetBlockNumber :: r.2).
Proof.
  intros Hc Hne Hh r. subst r.
  unfold _getBlocksForFilter, _getBlocksForFilter_then, _getBlockNumber.
  rewrite Hc, Hh. simpl. destruct (String.eqb_spec c ""); [contradiction | simpl].
  by destruct (_getBlocksInRange _ _ _) as [[p calls] | e].
Qed.

Lemma _getBlocksForFilter_then_state id c h rpc st :
  (_getBlocksForFilter_then id c h rpc st).1.1
  = if js_gt (hexToInt (VStr h)) (hexToInt (VStr c))
    then with_blockNumbers (<[id := h]> (blockNumbers st)) st
    else st.
Proof.
  unfold _getBlocksForFilter_then.
  by destruct (_getBlocksInRange _ _ _) as [[p calls] | e].
Qed.

(** X5: the only cursor a poll writes is the head it read, and only when
    that head compares greater ([>]) than the cursor the poll read when
    it started.  A poll that is answered before any other operation runs
    therefore never creates, deletes or lowers a cursor: for every
    filter id the cursor afterwards is the cursor before, or the head,
    above the cursor it replaces.  Without that proviso the property
    fails: a scan is the reading of the cursor followed by the callback
    [_getBlocksForFilter_then], and when the head arrives after other
    operations the callback still compares it with the cursor read at
    the start and sets it in the state of that moment, whatever the
    cursor has become: deleted by an uninstall or an expiry, or moved
    further by another poll. *)
Theorem poll_moves_cursor_to_newer_head (rpc : RPCServer) (st : state) :
  (∀ filterId j,
     let st' := (getFilterChanges filterId rpc st).1.1 in
     blockNumbers st' !! j = blockNumbers st !! j ∨
     ∃ c h, blockNumbers st !! j = Some c ∧ blockNumbers st' !! j = Some h ∧
            rpc_getBlockNumber rpc = Resolved h ∧
            js_gt (hexToInt (VStr h)) (hexToInt (VStr c)) = true) ∧
  (∀ id c h, blockNumbers st !! id = Some c → c ≠ "" →
     rpc_getBlockNumber rpc = Resolved h →
     let r := _getBlocksForFilter_then id c h rpc st in
     _getBlocksForFilter id rpc st = (r.1.1, r.1.2, GetBlockNumber :: r.2)) ∧
  (∀ id c h later,
     let st' := (_getBlocksForFilter_then id c h rpc later).1.1 in
     (js_gt (hexToInt (VStr h)) (hexToInt (VStr c)) = true →
      st' = with_blockNumbers (<[id := h]> (blockNumbers later)) later ∧
      blockNumbers st' !! id = Some h) ∧
     (js_gt (hexToInt (VStr h)) (hexToInt (VStr c)) = false → st' = later)).
Proof.
  split; [| split].
  - intros filterId j. apply getFilterChanges_cursor.
  - intros id c h. apply _getBlocksForFilter_split.
  - intros id c h later st'. subst st'. rewrite _getBlocksForFilter_then_state.
    split; intros ->; [| reflexivity].
    split; [reflexivity |]. simpl. apply lookup_insert_eq.
Qed.

(** X5, for the block filter created at head 100.  Polled at head 103
    and answered at once, its cursor moves from [0x64] to [0x67].  When
    the filter is uninstalled between the poll and its answer, the
    callback sets the cursor [0x67] for an id that has no filter any
    more; when a poll at head 105 was answered meanwhile, it lowers the
    cursor from [0x69] to [0x67]. *)
Lemma poll_moves_cursor_to_newer_head_witness :
  let st := block_filter_at_100 in
  let uninstalled := (uninstallFilter (VStr "0x1") st).1 in
  let polled := (getFilterChanges (VStr "0x1") (node "0x69") st).1.1 in
  _getBlocksForFilter 1 (node "0x67") st
  = (with_blockNumbers (<[1 := "0x67"]> (blockNumbers st)) st,
     (_getBlocksForFilter_then 1 "0x64" "0x67" (node "0x67") st).1.2,
     GetBlockNumber :: (_getBlocksForFilter_then 1 "0x64" "0x67" (node "0x67") st).2) ∧
  (blockNumbers uninstalled !! 1 = None ∧
   filters (_getBlocksForFilter_then 1 "0x64" "0x67" (node "0x67") uninstalled).1.1 !! 1
   = None ∧
   blockNumbers (_getBlocksForFilter_then 1 "0x64" "0x67" (node "0x67") uninstalled).1.1 !! 1
   = Some "0x67") ∧
  (blockNumbers polled !! 1 = Some "0x69" ∧
   blockNumbers (_getBlocksForFilter_then 1 "0x64" "0x67" (node "0x67") polled).1.1 !! 1
   = Some "0x67").
Proof.
  intros st uninstalled polled.
  destruct (poll_moves_cursor_to_newer_head (node "0x67") st) as (_ & Hsplit & Hlate).
  split; [| split].
  - rewrite (Hsplit 1 "0x64" "0x67"); [| reflexivity | discriminate | reflexivity].
    destruct (Hlate 1 "0x64" "0x67" st) as [Hset _].
    destruct (Hset eq_refl) as [-> _]. reflexivity.
  - destruct (Hlate 1 "0x64" "0x67" uninstalled) as [Hset _].
    destruct (Hset eq_refl) as [Hst Hcursor].
    split; [reflexivity | split; [| exact Hcursor]].
    rewrite Hst. reflexivity.
  - destruct (Hlate 1 "0x64" "0x67" polled) as [Hset _].
    destruct (Hset eq_refl) as [_ Hcursor].
    split; [reflexivity | exact Hcursor].
Defined.

(** X6: polling a block or pending-transaction filter twice at the same
    head gives an empty second answer: whatever the first poll did, the
    second one asks for the head only, fetches no block, resolves to the
    empty list and changes nothing. *)
Theorem second_poll_is_empty
    (filterId : jsval) (id : Z) (f : filter) (c h : string) (from to : Z)
    (rpc : RPCServer) (st : state) :
  hexToInt filterId = VNum id →
  filters st !! id = Some f → f_type f ≠ TLog → f_id f = id →
  blockNumbers st !! id = Some c → hexToInt (VStr c) = VNum from →
  rpc_getBlockNumber rpc = Resolved h → hexToInt (VStr h) = VNum to →
  let first := getFilterChanges filterId rpc st in
  getFilterChanges filterId rpc first.1.1
  = (first.1.1, Return (Resolved []), [GetBlockNumber]).
Proof.
  intros Hid Hf Hty Hfid Hc Hfrom Hh Hto first.
  assert (Hfirst : first.1.1 = (_getBlocksForFilter id rpc st).1.1).
  { subst first. rewrite (getFilterChanges_scan filterId id f) by done.
    by rewrite Hfid. }
  assert (Hquiet : ∀ st1 c1 from1,
            filters st1 !! id = Some f → blockNumbers st1 !! id = Some c1 →
            hexToInt (VStr c1) = VNum from1 → to ≤ from1 →
            getFilterChanges filterId rpc st1
            = (st1, Return (Resolved []), [GetBlockNumber])).
  { intros st1 c1 from1 Hf1 Hc1 Hfrom1 Hle.
    rewrite (getFilterChanges_scan filterId id f) by done. rewrite Hfid.
    by rewrite (_getBlocksForFilter_no_new_block rpc id c1 h from1 to). }
  destruct (Z.lt_ge_cases from to) as [Hlt | Hge].
  - destruct (_getBlocksForFilter_advances rpc id c h from to st Hc Hfrom Hh Hto Hlt)
      as (Hst & _ & _).
    rewrite Hfirst, Hst.
    apply (Hquiet _ h to); simpl; [done | apply lookup_insert_eq | done | lia].
  - rewrite Hfirst.
    rewrite (_getBlocksForFilter_no_new_block rpc id c h from to) by done.
    by apply (Hquiet st c from).
Qed.

(** X6, for the block filter created at head 100, polled twice at head
    103. *)
Lemma second_poll_is_empty_witness :
  let first := getFilterChanges (VStr "0x1") (node "0x67") block_filter_at_100 in
  getFilterChanges (VStr "0x1") (node "0x67") first.1.1
  = (first.1.1, Return (Resolved []), [GetBlockNumber]).
Proof.
  apply (second_poll_is_empty (VStr "0x1") 1 (Filter TBlock (OptString "latest") 1)
           "0x64" "0x67" 100 103 (node "0x67") block_filter_at_100);
    try reflexivity; discriminate.
Defined.

(** ** Removing a filter *)

Lemma Map_get_delete {V} (m : gmap Z V) (k : jsval) :
  Map_get (Map_delete m k) k = None.
Proof. destruct k; try reflexivity. simpl. apply lookup_delete_eq. Qed.

Lemma uninstallFilter_filters filterId st :
  filters (uninstallFilter filterId st).1 = Map_delete (filters st) (hexToInt filterId).
Proof.
  unfold uninstallFilter, _clearTimer, clearTimeout. simpl.
  by destruct (Map_get _ _).
Qed.

Lemma uninstallFilter_blockNumbers filterId st :
  blockNumbers (uninstallFilter filterId st).1
  = Map_delete (blockNumbers st) (hexToInt filterId).
Proof.
  unfold uninstallFilter, _clearTimer, clearTimeout. simpl.
  by destruct (Map_get _ _).
Qed.

(** X7: [uninstallFilter] resolves to [true] for every argument, a
    registered filter or not, and once it has run both
    [getFilterChanges] and [getFilterLogs] with the same argument are
    rejected with their "no filter found" error, without any request and
    without any change; the cursor of the filter is gone too. *)
Theorem uninstalled_filter_is_unknown (filterId : jsval) (rpc : RPCServer) (st : state) :
  let st' := (uninstallFilter filterId st).1 in
  (uninstallFilter filterId st).2 = Resolved true ∧
  getFilterChanges filterId rpc st'
  = (st', Return (Rejected (Error "getFilterChanges: no filter found")), []) ∧
  getFilterLogs filterId rpc st' = (st', Rejected (Error "no filter found"), []) ∧
  Map_get (blockNumbers st') (hexToInt filterId) = None.
Proof.
  intros st'. subst st'. split; [reflexivity |].
  unfold getFilterChanges, getFilterLogs.
  rewrite uninstallFilter_filters, uninstallFilter_blockNumbers, !Map_get_delete.
  done.
Qed.

(** X8: [uninstallFilter] is idempotent, leaves every other filter and
    cursor as it was, and never writes [timers]. *)
Theorem uninstallFilter_idempotent (filterId : jsval) (st : state) :
  let st' := (uninstallFilter filterId st).1 in
  (uninstallFilter filterId st').1 = st' ∧
  timers st' = timers st ∧
  (∀ j, hexToInt filterId ≠ VNum j →
        filters st' !! j = filters st !! j ∧
        blockNumbers st' !! j = blockNumbers st !! j).
Proof.
  intros st'. subst st'.
  destruct (hexToInt filterId) as [| id | |] eqn:Hid.
  2: {
    rewrite (uninstallFilter_number _ id st Hid).
    split; [| split; [reflexivity |]].
    - rewrite (uninstallFilter_number _ id _ Hid). simpl.
      rewrite !delete_delete_eq. f_equal.
      unfold cleared. simpl. destruct (timers st !! id); [| reflexivity].
      apply delete_delete_eq.
    - intros j Hj. simpl.
      rewrite !lookup_delete_ne by congruence. done. }
  all: rewrite !uninstallFilter_other by (by rewrite Hid); by repeat split.
Qed.

Lemma uninstallFilter_idempotent_witness :
  let st' := (uninstallFilter (VStr "0x1") block_filter_at_100).1 in
  filters st' !! 7 = filters block_filter_at_100 !! 7 ∧
  blockNumbers st' !! 7 = blockNumbers block_filter_at_100 !! 7.
Proof.
  destruct (uninstallFilter_idempotent (VStr "0x1") block_filter_at_100) as (_ & _ & H).
  apply (H 7). discriminate.
Defined.

(** ** Creating filters *)

Lemma refused_option_spec (s : string) :
  refused_option s = true →
  _normalizeFilterBlock (Some s) = Throw (Error ("Invalid block option: " ++ s)).
Proof.
  unfold refused_option. rewrite !andb_true_iff, !negb_true_iff.
  intros [[[H1 H2] H3] H4].
  apply _normalizeFilterBlock_refused; try assumption;
    intros ->; discriminate.
Qed.

(** X9: [newFilter] with a [fromBlock] or a [toBlock] that is neither
    "latest", "pending" nor "earliest" and does not start with [0x]
    throws; for [fromBlock] the error is "Invalid block option: "
    followed by the string.  Nothing is installed, stored or armed, and
    nothing is sent to the node. *)
Theorem newFilter_refuses_block_option
    (params : rawParams) (s : string) (rpc : RPCServer) (st : state) :
  refused_option s = true →
  (p_fromBlock params = Some s →
   newFilter params rpc st = (st, Throw (Error ("Invalid block option: " ++ s)), [])) ∧
  (p_toBlock params = Some s →
   ∃ e, newFilter params rpc st = (st, Throw e, [])).
Proof.
  intros Hs. pose proof (refused_option_spec s Hs) as Hthrow. split; intros Hp.
  - apply newFilter_refused, _normalizeFilter_refused_fromBlock. by rewrite Hp.
  - destruct (_normalizeFilter_refused_toBlock params (Error ("Invalid block option: " ++ s)))
      as [e He]; [by rewrite Hp |].
    exists e. by apply newFilter_refused.
Qed.

Lemma newFilter_refuses_block_option_witness :
  newFilter (RawParams (Some "100") None AddressUndefined None) (node "0x64") init
  = (init, Throw (Error "Invalid block option: 100"), []) ∧
  ∃ e, newFilter (RawParams None (Some "") AddressUndefined None) (node "0x64") init
       = (init, Throw e, []).
Proof.
  split.
  - apply (newFilter_refuses_block_option _ "100"); reflexivity.
  - apply (newFilter_refuses_block_option _ ""); reflexivity.
Defined.

Lemma then_store_blockNumber_resolved filterId rpc st h :
  rpc_getBlockNumber rpc = Resolved h →
  then_store_blockNumber filterId rpc st
  = (with_blockNumbers (<[filterId := h]> (blockNumbers st)) st,
     Resolved (intToHex (VNum filterId)), [GetBlockNumber]).
Proof. intros H. unfold then_store_blockNumber, _getBlockNumber. by rewrite H. Qed.

Lemma create_resolved c rpc st h :
  rpc_getBlockNumber rpc = Resolved h → well_formed c = true →
  ∃ options,
    (c = CreateBlock → options = OptString "latest") ∧
    (c = CreatePendingTx → options = OptString "pending") ∧
    (∀ params, c = CreateLog params →
       ∃ o, _normalizeFilter params = Return o ∧ options = OptObject o) ∧
    create c rpc st
    = (with_blockNumbers
         (<[1 := h]> (blockNumbers (_installFilter (creation_type c) options st).1))
         (_installFilter (creation_type c) options st).1,
       Return (Resolved (VStr "0x1")), [GetBlockNumber]).
Proof.
  intros Hhead Hwf. destruct c as [params | |]; unfold create, creation_type.
  - unfold well_formed in Hwf. unfold newFilter.
    destruct (_normalizeFilter params) as [o | ?] eqn:Ho; [| discriminate].
    exists (OptObject o). repeat split; try discriminate.
    + intros ? [= <-]. eauto.
    + unfold _installFilter. cbv beta iota zeta.
      rewrite (then_store_blockNumber_resolved _ _ _ h Hhead). reflexivity.
  - exists (OptString "latest"). repeat split; try discriminate.
    unfold newBlockFilter, _installFilter. cbv beta iota zeta.
    rewrite (then_store_blockNumber_resolved _ _ _ h Hhead). reflexivity.
  - exists (OptString "pending"). repeat split; try discriminate.
    unfold newPendingTransactionFilter, _installFilter. cbv beta iota zeta.
    rewrite (then_store_blockNumber_resolved _ _ _ h Hhead). reflexivity.
Qed.

(** X10: a creation whose head fetch is answered [h] sends that one
    request and resolves to the id [0x1]; afterwards the filter of the
    requested type is registered under id 1, its cursor is [h], and its
    timer is armed to fire 300000 ms after the creation. *)
Theorem creation_succeeds (c : creation) (rpc : RPCServer) (st : state) (h : string) :
  rpc_getBlockNumber rpc = Resolved h →
  well_formed c = true →
  let r := create c rpc st in
  r.1.2 = Return (Resolved (VStr "0x1")) ∧
  r.2 = [GetBlockNumber] ∧
  (∃ f, filters r.1.1 !! 1 = Some f ∧ f_type f = creation_type c ∧ f_id f = 1) ∧
  blockNumbers r.1.1 !! 1 = Some h ∧
  armed r.1.1 1 = true ∧
  due_time r.1.1 1 = Some (clock st + 300000).
Proof.
  intros Hhead Hwf r.
  destruct (create_resolved c rpc st h Hhead Hwf) as (options & _ & _ & _ & Hr).
  subst r. rewrite Hr. cbn [fst snd].
  pose proof (due_time__installFilter (creation_type c) options st) as Hdue.
  split; [done | split; [done | split; [| split; [| split]]]].
  - exists (Filter (creation_type c) options 1).
    unfold with_blockNumbers. cbn [filters].
    by rewrite _installFilter_filters, lookup_insert_eq.
  - unfold with_blockNumbers. cbn [blockNumbers]. apply lookup_insert_eq.
  - unfold due_time in Hdue. unfold armed, with_blockNumbers. cbn [timers pending].
    destruct (timers _ !! 1) as [handle |]; [| discriminate].
    destruct (pending _ !! handle) as [[target due] |]; [| discriminate].
    by destruct (bool_decide _).
  - exact Hdue.
Qed.

Lemma creation_succeeds_witness :
  let r := create (CreateLog (RawParams (Some "earliest") None (AddressSingle "0xabc") None))
             (node "0x64") init in
  r.1.2 = Return (Resolved (VStr "0x1")) ∧
  r.2 = [GetBlockNumber] ∧
  (∃ f, filters r.1.1 !! 1 = Some f ∧ f_type f = TLog ∧ f_id f = 1) ∧
  blockNumbers r.1.1 !! 1 = Some "0x64" ∧
  armed r.1.1 1 = true ∧
  due_time r.1.1 1 = Some 300000.
Proof.
  apply (creation_succeeds
           (CreateLog (RawParams (Some "earliest") None (AddressSingle "0xabc") None))
           (node "0x64") init "0x64"); reflexivity.
Defined.

Lemma prefix_0x (s : string) :
  String.prefix "0x" s = true → ∃ t, s = "0x" ++ t.
Proof.
  destruct s as [| c0 [| c1 t]]; cbn [String.prefix]; try discriminate.
  - by destruct (ascii_dec "0" c0).
  - destruct (ascii_dec "0" c0) as [<- |]; [| discriminate].
    destruct (ascii_dec "x" c1) as [<- |]; [| discriminate].
    intros _. by exists t.
Qed.

Lemma _normalizeFilterBlock_prefix_0x (s : string) :
  String.prefix "0x" s = true →
  _normalizeFilterBlock (Some s) = Return (hexToInt (VStr s)).
Proof.
  intros Hs. destruct (prefix_0x s Hs) as [t ->].
  rewrite _normalizeFilterBlock_0x, hexToInt_string; [done |].
  cbv [String.append]. discriminate.
Qed.

(** X11: a bound given to [newFilter] as a string that starts with [0x]
    and reads as a positive height, up to [Number.MAX_SAFE_INTEGER],
    comes back in the query of [getFilterLogs] as [intToHex] writes that
    height, in lower-case digits without a leading zero: verbatim
    exactly when it was given in that form ("0xFF" comes back as
    "0xff", "0x0a" as "0xa").  The address filter is sent as a list
    ([address] is left out when none was given), the topics as given,
    [[]] when absent. *)
Theorem created_filter_replays_its_bounds
    (fromBlock toBlock : string) (a b : Z)
    (address : rawAddress) (topics : option (list topic))
    (rpc rpc' : RPCServer) (st : state) (h : string) :
  String.prefix "0x" fromBlock = true → hexToInt (VStr fromBlock) = VNum a →
  0 < a ≤ MAX_SAFE_INTEGER →
  String.prefix "0x" toBlock = true → hexToInt (VStr toBlock) = VNum b →
  0 < b ≤ MAX_SAFE_INTEGER →
  rpc_getBlockNumber rpc = Resolved h →
  let params := RawParams (Some fromBlock) (Some toBlock) address topics in
  let st' := (newFilter params rpc st).1.1 in
  let q :=
    LogQuery (VStr ("0x" ++ hex_string a)) (VStr ("0x" ++ hex_string b))
             (Some match topics with Some t => t | None => [] end)
             match address with
             | AddressUndefined => None
             | AddressSingle x => Some [x]
             | AddressArray l => Some l
             end
             None "" in
  getFilterLogs (VStr "0x1") rpc' st' = (st', rpc_getFilterLogs rpc' q, [GetFilterLogs q]) ∧
  (q_fromBlock q = VStr fromBlock ↔ fromBlock = "0x" ++ hex_string a) ∧
  (q_toBlock q = VStr toBlock ↔ toBlock = "0x" ++ hex_string b).
Proof.
  intros Hpa Ha [Hapos _] Hpb Hb [Hbpos _] Hhead params st' q.
  split; [| split; (split; [by intros [= <-] | by intros ->])].
  set (o := LogOptions (VNum a) (VNum b)
              match address with
              | AddressUndefined => None
              | AddressArray l => Some l
              | AddressSingle x => Some [x]
              end
              match topics with Some t => t | None => [] end).
  assert (Hnorm : _normalizeFilter params = Return o).
  { unfold _normalizeFilter, params. cbn [p_fromBlock p_toBlock p_address p_topics].
    rewrite !_normalizeFilterBlock_prefix_0x by done. rewrite Ha, Hb. reflexivity. }
  destruct (create_resolved (CreateLog params) rpc st h Hhead) as (options & _ & _ & Ho & Hr).
  { unfold well_formed. by rewrite Hnorm. }
  destruct (Ho params eq_refl) as (o' & Hno & ->).
  rewrite Hnorm in Hno. injection Hno as <-.
  subst st'. change (newFilter params rpc st) with (create (CreateLog params) rpc st).
  rewrite Hr. cbn [fst snd].
  rewrite (getFilterLogs_registered (VStr "0x1") 1 (Filter TLog (OptObject o) 1) o rpc');
    [| reflexivity | | reflexivity].
  - assert (Hq : replay_query o = q); [| by rewrite Hq].
    unfold replay_query, _normalizeParamBlock, o.
    cbn [o_fromBlock o_toBlock o_topics o_addresses strict_eq jsval_eqb].
    rewrite !intToHex_positive by lia.
    subst q. by destruct address.
  - unfold with_blockNumbers. cbn [filters creation_type].
    by rewrite _installFilter_filters, lookup_insert_eq.
Qed.

(** X11, for bounds in canonical form and for bounds in another
    spelling. *)
Lemma created_filter_replays_its_bounds_witness :
  (let params := RawParams (Some "0x10") (Some "0xff") (AddressSingle "0xabc") None in
   let st' := (newFilter params (node "0x64") init).1.1 in
   let q := LogQuery (VStr "0x10") (VStr "0xff") (Some []) (Some ["0xabc"]) None "" in
   getFilterLogs (VStr "0x1") (node "0x70") st'
   = (st', Resolved ["log of 0x10..0xff"], [GetFilterLogs q])) ∧
  (let params := RawParams (Some "0x0a") (Some "0xFF") AddressUndefined None in
   let st' := (newFilter params (node "0x64") init).1.1 in
   let q := LogQuery (VStr "0xa") (VStr "0xff") (Some []) None None "" in
   getFilterLogs (VStr "0x1") (node "0x70") st'
   = (st', Resolved ["log of 0xa..0xff"], [GetFilterLogs q])).
Proof.
  assert (Hsafe : ∀ n, 0 < n ≤ 255 → 0 < n ≤ MAX_SAFE_INTEGER).
  { intros n [Hpos Hle]. split; [done |]. etrans; [exact Hle |]. vm_compute. discriminate. }
  split.
  - apply (created_filter_replays_its_bounds "0x10" "0xff" 16 255 (AddressSingle "0xabc") None
             (node "0x64") (node "0x70") init "0x64");
      try reflexivity; apply Hsafe; lia.
  - apply (created_filter_replays_its_bounds "0x0a" "0xFF" 10 255 AddressUndefined None
             (node "0x64") (node "0x70") init "0x64");
      try reflexivity; apply Hsafe; lia.
Defined.

(** ** Polls and the node *)

(** X12: when the head cannot be read, the poll of a registered filter
    that has a cursor is rejected with the very error of the head
    request; that request is the only one sent and the state is left as
    it was.  (A log filter is one whose options are the normalized
    object.) *)
Theorem poll_head_failure
    (filterId : jsval) (id : Z) (f : filter) (c : string) (e : error)
    (rpc : RPCServer) (st : state) :
  hexToInt filterId = VNum id →
  filters st !! id = Some f → f_id f = id →
  (f_type f = TLog → ∃ o, f_options f = OptObject o) →
  blockNumbers st !! id = Some c → c ≠ "" →
  rpc_getBlockNumber rpc = Rejected e →
  getFilterChanges filterId rpc st = (st, Return (Rejected e), [GetBlockNumber]).
Proof.
  intros Hid Hf Hfid Hlog Hc Hne Hhead.
  assert (Htruthy : truthy (VStr c) = true).
  { simpl. by destruct (String.eqb_spec c ""). }
  destruct (f_type f) eqn:Hty.
  - destruct (Hlog eq_refl) as [o Ho].
    unfold getFilterChanges. rewrite Hid. simpl Map_get. rewrite Hf, Hty, Hfid.
    unfold _getLogFilterChanges, _getBlockNumber.
    rewrite Hf, Hc, Ho, Hhead. cbn [options_truthy]. by rewrite Htruthy.
  - rewrite (getFilterChanges_scan filterId id f) by (done || by rewrite Hty).
    rewrite Hfid. unfold _getBlocksForFilter, _getBlockNumber.
    by rewrite Hc, Htruthy, Hhead.
  - rewrite (getFilterChanges_scan filterId id f) by (done || by rewrite Hty).
    rewrite Hfid. unfold _getBlocksForFilter, _getBlockNumber.
    by rewrite Hc, Htruthy, Hhead.
Qed.

Lemma poll_head_failure_witness :
  getFilterChanges (VStr "0x1") node_down block_filter_at_100
  = (block_filter_at_100, Return (Rejected (Error "rpc error")), [GetBlockNumber]).
Proof.
  apply (poll_head_failure (VStr "0x1") 1 (Filter TBlock (OptString "latest") 1) "0x64");
    try reflexivity; discriminate.
Defined.

(** X13: the poll of a log filter whose upper bound is "latest", with
    the cursor [c] not above the head [h], reads the head and sends one
    log query, over [c] to [h] as the node wrote them, with the topics
    and the address list of the filter under [addresses].  It resolves
    to the logs of the answer, is rejected with the error of the query
    when that fails, and leaves the state as it was.  With the cursor
    above the head it resolves to the empty list without a query. *)
Theorem log_poll_queries_cursor_to_head
    (filterId : jsval) (id : Z) (f : filter) (o : logOptions) (c h : string)
    (from to : Z) (rpc : RPCServer) (st : state) :
  hexToInt filterId = VNum id →
  filters st !! id = Some f → f_type f = TLog → f_id f = id →
  f_options f = OptObject o → o_toBlock o = VStr "latest" →
  blockNumbers st !! id = Some c → hexToInt (VStr c) = VNum from →
  rpc_getBlockNumber rpc = Resolved h → hexToInt (VStr h) = VNum to →
  let q := LogQuery (VStr c) (VStr h) (Some (o_topics o)) None (Some (o_addresses o)) "" in
  let r := getFilterChanges filterId rpc st in
  (from ≤ to →
   r.1.1 = st ∧ r.2 = [GetBlockNumber; GetFilterLogs q] ∧
   (∀ logs, rpc_getFilterLogs rpc q = Resolved logs →
            r.1.2 = Return (Resolved (Log <$> logs))) ∧
   (∀ e, rpc_getFilterLogs rpc q = Rejected e → r.1.2 = Return (Rejected e))) ∧
  (to < from → r = (st, Return (Resolved []), [GetBlockNumber])).
Proof.
  intros Hid Hf Hty Hfid Ho Hlatest Hc Hfrom Hh Hto q r.
  assert (Hr : r = _getLogFilterChanges id rpc st).
  { subst r. unfold getFilterChanges. rewrite Hid. simpl Map_get.
    by rewrite Hf, Hty, Hfid. }
  split; intros Horder.
  - rewrite Hr. unfold _getLogFilterChanges, _getBlockNumber.
    rewrite Hf, Hc, Ho, Hh. cbn [options_truthy opt_toBlock]. rewrite Hlatest.
    assert (Htruthy : truthy (VStr c) = true).
    { simpl. destruct (String.eqb_spec c "") as [-> |]; [discriminate Hfrom | done]. }
    rewrite Htruthy. cbn [andb strict_eq jsval_eqb String.eqb Ascii.eqb Bool.eqb].
    rewrite Hfrom, Hto. unfold js_gt. cbn [js_lt to_number].
    destruct (Z.ltb_spec to from); [lia |].
    cbn [fst snd assign_range]. fold q.
    split; [reflexivity | split; [reflexivity | split]].
    + intros logs ->. reflexivity.
    + intros e ->. reflexivity.
  - rewrite Hr. by apply (_getLogFilterChanges_latest_inverted id f o c h from to).
Qed.

Lemma log_poll_queries_cursor_to_head_witness :
  let st := (newFilter (RawParams None None AddressUndefined None) (node "0x64") init).1.1 in
  let q := LogQuery (VStr "0x64") (VStr "0x67") (Some []) None (Some None) "" in
  (getFilterChanges (VStr "0x1") (node "0x67") st).2 = [GetBlockNumber; GetFilterLogs q] ∧
  getFilterChanges (VStr "0x1") (node "0x63") st
  = (st, Return (Resolved []), [GetBlockNumber]).
Proof.
  intros st q.
  pose (o := LogOptions (VStr "latest") (VStr "latest") None []).
  split.
  - assert (Hup := proj1 (log_poll_queries_cursor_to_head (VStr "0x1") 1
                            (Filter TLog (OptObject o) 1) o "0x64" "0x67" 100 103
                            (node "0x67") st eq_refl eq_refl eq_refl eq_refl eq_refl
                            eq_refl eq_refl eq_refl eq_refl eq_refl)).
    apply Hup. lia.
  - assert (Hdown := proj2 (log_poll_queries_cursor_to_head (VStr "0x1") 1
                              (Filter TLog (OptObject o) 1) o "0x64" "0x63" 100 99
                              (node "0x63") st eq_refl eq_refl eq_refl eq_refl eq_refl
                              eq_refl eq_refl eq_refl eq_refl eq_refl)).
    apply Hdown. lia.
Defined.

(** ** Expiry *)

(** X14: in every state the manager reaches, the expiry of a filter does
    exactly what [uninstallFilter] does: when the due timeout of the
    filter [id] fires, the state is the one [uninstallFilter] of that id
    leaves (registry entry and cursor deleted, timeout no longer
    pending). *)
Theorem expiry_acts_as_uninstall
    (evs : list event) (handle : positive) (id due : Z) (filterId : jsval) :
  let st := run evs init in
  pending st !! handle = Some (id, due) → due ≤ clock st →
  hexToInt filterId = VNum id →
  fire handle st = (uninstallFilter filterId st).1.
Proof.
  intros st Hp Hdue Hid.
  assert (H : inv st) by (apply inv_run; auto with filtermgr).
  rewrite (fire_due handle id due) by done.
  by rewrite (uninstallFilter_number filterId id).
Qed.

Lemma expiry_acts_as_uninstall_witness :
  let st := run [EvNewBlockFilter (node "0x64"); EvAdvance 300000] init in
  fire 1 st = (uninstallFilter (VStr "0x1") st).1.
Proof.
  apply (expiry_acts_as_uninstall [EvNewBlockFilter (node "0x64"); EvAdvance 300000]
           1%positive 1 300000 (VStr "0x1")); [reflexivity | | reflexivity].
  vm_compute. discriminate.
Defined.

(** X15: in every state the manager reaches, at most one timeout is
    pending for a filter id: installing a filter under an id clears the
    timeout of the previous holder of the id, so no earlier timeout is
    left to delete the new filter before its own five minutes. *)
Theorem one_pending_timeout_per_filter
    (evs : list event) (handle handle' : positive) (id due due' : Z) :
  let st := run evs init in
  pending st !! handle = Some (id, due) →
  pending st !! handle' = Some (id, due') →
  handle = handle' ∧ due = due'.
Proof.
  intros st Hp Hp'.
  assert (H : inv st) by (apply inv_run; auto with filtermgr).
  pose proof (inv_owner st H _ _ _ Hp) as Ht.
  pose proof (inv_owner st H _ _ _ Hp') as Ht'.
  assert (handle = handle') as <- by congruence.
  split; [reflexivity | congruence].
Qed.

Lemma one_pending_timeout_per_filter_witness :
  let st := run [EvNewBlockFilter (node "0x64"); EvAdvance 1000;
                 EvNewFilter (RawParams None None AddressUndefined None) (node "0x65")] init in
  pending st !! 1%positive = None ∧ pending st !! 2%positive = Some (1, 301000) ∧
  (2%positive = 2%positive ∧ 301000 = 301000).
Proof.
  intros st. split; [reflexivity | split; [reflexivity |]].
  apply (one_pending_timeout_per_filter
           [EvNewBlockFilter (node "0x64"); EvAdvance 1000;
            EvNewFilter (RawParams None None AddressUndefined None) (node "0x65")]
           2%positive 2%positive 1 301000 301000); reflexivity.
Defined.

(** ** Leniency of the block options *)

Lemma append_String (a : ascii) (s t : string) : String a s ++ t = String a (s ++ t).
Proof. reflexivity. Qed.

Lemma read_digits_then_stop (d : Hexadecimal.uint) (acc : Z) (c : ascii) (t : string) :
  radix_digit 16 c = None →
  read_digits 16 acc true
    (HexadecimalString.NilEmpty.string_of_uint d ++ String c t)
  = Some (uint_value acc d).
Proof.
  intros Hc. revert acc.
  induction d; intros acc;
    cbn [HexadecimalString.NilEmpty.string_of_uint uint_value];
    [change ("" ++ String c t) with (String c t); cbn [read_digits]; by rewrite Hc | ..];
    rewrite append_String; cbn [read_digits];
    match goal with
    | |- context [radix_digit 16 ?x] =>
        let v := eval vm_compute in (radix_digit 16 x) in
        change (radix_digit 16 x) with v
    end;
    cbv beta iota; apply IHd.
Qed.

Lemma string_of_uint_nonnil (d : Hexadecimal.uint) :
  d ≠ Hexadecimal.Nil →
  HexadecimalString.NilZero.string_of_uint d
  = HexadecimalString.NilEmpty.string_of_uint d.
Proof. by destruct d. Qed.

Lemma read_digits_first (d : Hexadecimal.uint) (c : ascii) (t : string) :
  d ≠ Hexadecimal.Nil → radix_digit 16 c = None →
  read_digits 16 0 false
    (HexadecimalString.NilEmpty.string_of_uint d ++ String c t)
  = Some (uint_value 0 d).
Proof.
  intros Hd Hc. destruct d; [contradiction | ..];
    cbn [HexadecimalString.NilEmpty.string_of_uint uint_value];
    rewrite append_String; cbn [read_digits];
    match goal with
    | |- context [radix_digit 16 ?x] =>
        let v := eval vm_compute in (radix_digit 16 x) in
        change (radix_digit 16 x) with v
    end;
    cbv beta iota; by apply read_digits_then_stop.
Qed.

(** X16: a block option that starts with [0x] and hexadecimal digits is
    accepted whatever follows the digits: the digits up to the first
    character that is not one give the height, the rest is dropped
    without an error.  The height is any natural number up to
    [Number.MAX_SAFE_INTEGER], written as [intToHex] writes it. *)
Theorem block_option_drops_trailing_characters (n : Z) (c : ascii) (t : string) :
  0 ≤ n ≤ MAX_SAFE_INTEGER → radix_digit 16 c = None →
  _normalizeFilterBlock (Some ("0x" ++ hex_string n ++ String c t)) = Return (VNum n).
Proof.
  intros [Hn _] Hc. rewrite _normalizeFilterBlock_0x, parseInt16_0x.
  unfold hex_string. destruct (Z.ltb_spec n 0); [lia |].
  rewrite string_of_uint_nonnil by apply to_hex_uint_nonnil.
  rewrite read_digits_first by (apply to_hex_uint_nonnil || done).
  rewrite <- uint_value_of_hex_uint.
  change (Pos.of_hex_uint ?d) with (N.of_hex_uint d).
  rewrite HexadecimalN.Unsigned.of_to. do 2 f_equal. lia.
Qed.

Lemma block_option_drops_trailing_characters_witness :
  _normalizeFilterBlock (Some "0x1fzz") = Return (VNum 31).
Proof.
  apply (block_option_drops_trailing_characters 31 "z" "z");
    [vm_compute; split; discriminate | reflexivity].
Defined.

(** * Ids of payloads: [id_mapping.js] and [RPCServer.call] *)

Section Ids.

Import IdMapping.

Lemma tryPopId_hit (k : Z) (v : jsval) (intIds : gmap Z jsval) :
  intIds !! k = Some v → truthy v = true →
  tryPopId (VNum k) intIds = (delete k intIds, v).
Proof. intros Hk Hv. unfold tryPopId. simpl. by rewrite Hk, Hv. Qed.

Lemma tryRestoreId_tryIntifyId (genId : Z) (id : jsval) (intIds : gmap Z jsval) :
  truthy id = true → is_number id = false → intIds !! genId = None →
  let r := tryIntifyId genId id intIds in
  r.2 = VNum genId ∧ tryRestoreId r.2 r.1 = (intIds, id).
Proof.
  intros Htruthy Hnum Hfresh r. subst r. unfold tryIntifyId.
  rewrite Htruthy, Hnum. simpl. split; [reflexivity |].
  unfold tryRestoreId.
  rewrite (tryPopId_hit genId id) by (by rewrite ?lookup_insert_eq).
  rewrite Htruthy, delete_insert_eq. f_equal. by apply delete_id.
Qed.

(** X17: an id that is truthy and not a Number (a non-empty string) is
    replaced by the generated Number, and restoring that Number gives
    the id back and leaves the table as it was before the two calls,
    provided the generated Number was not in use. *)
Theorem intify_then_restore (genId : Z) (id : jsval) (intIds : gmap Z jsval) :
  truthy id = true → is_number id = false → intIds !! genId = None →
  let r := tryIntifyId genId id intIds in
  r.2 = VNum genId ∧ tryRestoreId r.2 r.1 = (intIds, id).
Proof. apply tryRestoreId_tryIntifyId. Qed.

Lemma intify_then_restore_witness :
  let r := tryIntifyId 1700000000123 (VStr "req-7") {[ 5 := VStr "other" ]} in
  r.2 = VNum 1700000000123 ∧
  tryRestoreId r.2 r.1 = ({[ 5 := VStr "other" ]}, VStr "req-7").
Proof.
  apply (intify_then_restore 1700000000123 (VStr "req-7")); reflexivity.
Defined.

(** X18: after [tryIntifyId] the id of the payload is always a Number,
    and never NaN.  A Number other than 0 and NaN is kept as it is and
    the table is untouched; a non-empty string is recorded under the
    generated Number, which replaces it; a falsy id ([undefined], 0,
    NaN, the empty string) is replaced by the generated Number without a
    record.  The table changes at the generated key only. *)
Theorem intified_id_is_a_number (genId : Z) (id : jsval) (intIds : gmap Z jsval) :
  let r := tryIntifyId genId id intIds in
  (∃ z, r.2 = VNum z) ∧
  (∀ z, id = VNum z → z ≠ 0 → r = (intIds, VNum z)) ∧
  (∀ s, id = VStr s → s ≠ "" → r = (<[genId := VStr s]> intIds, VNum genId)) ∧
  (truthy id = false → r = (intIds, VNum genId)) ∧
  (∀ k, k ≠ genId → r.1 !! k = intIds !! k).
Proof.
  intros r. subst r. unfold tryIntifyId.
  split; [| split; [| split; [| split]]].
  - destruct id as [| z | | s]; simpl; eauto.
    + destruct (z =? 0); simpl; eauto.
    + destruct (String.eqb s ""); simpl; eauto.
  - intros z -> Hz. simpl. by destruct (Z.eqb_spec z 0).
  - intros s -> Hs. simpl. by destruct (String.eqb_spec s "").
  - by intros ->.
  - intros k Hk. destruct (truthy id); simpl; [| done].
    destruct (is_number id); simpl; [done |]. by rewrite lookup_insert_ne.
Qed.

Lemma intified_id_is_a_number_witness :
  tryIntifyId 99 (VNum 7) {[ 5 := VStr "other" ]} = ({[ 5 := VStr "other" ]}, VNum 7) ∧
  tryIntifyId 99 (VStr "a") {[ 5 := VStr "other" ]}
  = (<[99 := VStr "a"]> {[ 5 := VStr "other" ]}, VNum 99) ∧
  tryIntifyId 99 (VNum 0) {[ 5 := VStr "other" ]} = ({[ 5 := VStr "other" ]}, VNum 99) ∧
  (tryIntifyId 99 (VStr "a") {[ 5 := VStr "other" ]}).1 !! 5 = Some (VStr "other").
Proof.
  split; [| split; [| split]].
  - destruct (intified_id_is_a_number 99 (VNum 7) {[ 5 := VStr "other" ]}) as (_ & H & _).
    apply (H 7); [reflexivity | lia].
  - destruct (intified_id_is_a_number 99 (VStr "a") {[ 5 := VStr "other" ]})
      as (_ & _ & H & _).
    apply (H "a"); [reflexivity | discriminate].
  - destruct (intified_id_is_a_number 99 (VNum 0) {[ 5 := VStr "other" ]})
      as (_ & _ & _ & H & _).
    apply H. reflexivity.
  - destruct (intified_id_is_a_number 99 (VStr "a") {[ 5 := VStr "other" ]})
      as (_ & _ & _ & _ & H).
    rewrite (H 5); [reflexivity | lia].
Defined.

Lemma values_truthy_delete (k : jsval) (intIds : gmap Z jsval) :
  values_truthy intIds → values_truthy (Map_delete intIds k).
Proof.
  intros H. destruct k as [| z | |]; try done. simpl.
  intros j v Hj. apply lookup_delete_Some in Hj as [_ Hj]. by eapply H.
Qed.

(** X19: the table only ever holds truthy ids: the empty table does,
    and [tryIntifyId] and [tryRestoreId] keep it so.  On such a table
    [tryRestoreId] consumes the entry it restores: a Number under which
    an id is recorded is replaced by that id and the entry is deleted,
    any other id is left as it is together with the table.  Afterwards
    nothing is recorded under the id, so that restoring the same id a
    second time leaves the id and the table unchanged. *)
Theorem restore_is_one_shot (id : jsval) (intIds : gmap Z jsval) :
  values_truthy intIds →
  (∀ genId id', values_truthy (tryIntifyId genId id' intIds).1) ∧
  let r := tryRestoreId id intIds in
  values_truthy r.1 ∧
  (∀ k v, id = VNum k → intIds !! k = Some v →
     r = (delete k intIds, v) ∧ r.1 !! k = None) ∧
  (Map_get intIds id = None → r = (intIds, id)) ∧
  Map_get r.1 id = None ∧
  tryRestoreId id r.1 = (r.1, id).
Proof.
  intros Hinv. split.
  - intros genId id'. unfold tryIntifyId.
    destruct (truthy id') eqn:Ht; simpl; [| done].
    destruct (is_number id'); simpl; [done |].
    intros k v Hk. apply lookup_insert_Some in Hk as [[_ <-] | [_ Hk]]; [done |].
    by eapply Hinv.
  - cbv zeta.
    assert (Hhit : ∀ k v, id = VNum k → intIds !! k = Some v →
              tryRestoreId id intIds = (delete k intIds, v)).
    { intros k v -> Hk. unfold tryRestoreId.
      rewrite (tryPopId_hit k v) by (done || by eapply Hinv).
      by rewrite (Hinv k v Hk). }
    assert (Hmiss : Map_get intIds id = None → tryRestoreId id intIds = (intIds, id)).
    { intros Hget. unfold tryRestoreId, tryPopId. by rewrite Hget. }
    assert (Hgone : Map_get (tryRestoreId id intIds).1 id = None).
    { destruct (Map_get intIds id) as [v |] eqn:Hget.
      - destruct id as [| k | |]; try discriminate. simpl in Hget.
        rewrite (Hhit k v) by done. simpl. apply lookup_delete_eq.
      - by rewrite Hmiss. }
    split; [| split; [| split; [done | split; [done |]]]].
    + destruct (Map_get intIds id) as [v |] eqn:Hget.
      * destruct id as [| k | |]; try discriminate. simpl in Hget.
        rewrite (Hhit k v) by done. by apply (values_truthy_delete (VNum k)).
      * by rewrite Hmiss.
    + intros k v Hid Hk. rewrite (Hhit k v) by done.
      split; [reflexivity | apply lookup_delete_eq].
    + unfold tryRestoreId at 1, tryPopId. by rewrite Hgone.
Qed.

Lemma restore_is_one_shot_witness :
  let r := tryRestoreId (VNum 99) {[ 99 := VStr "a"; 5 := VStr "other" ]} in
  r = (delete 99 {[ 99 := VStr "a"; 5 := VStr "other" ]}, VStr "a") ∧
  r.1 !! 99 = None ∧ r.1 !! 5 = Some (VStr "other") ∧
  tryRestoreId (VNum 99) r.1 = (r.1, VNum 99).
Proof.
  intros r.
  assert (Hinv : values_truthy ({[ 99 := VStr "a"; 5 := VStr "other" ]} : gmap Z jsval)).
  { intros k v Hk. apply lookup_insert_Some in Hk as [[_ <-] | [_ Hk]]; [done |].
    apply lookup_singleton_Some in Hk as [_ <-]. reflexivity. }
  destruct (restore_is_one_shot (VNum 99) _ Hinv) as (_ & _ & Hhit & _ & _ & Hagain).
  destruct (Hhit 99 (VStr "a") eq_refl eq_refl) as [Hr Hnone].
  split; [exact Hr | split; [exact Hnone | split; [reflexivity | exact Hagain]]].
Defined.

Import Rpc.

(** X20: [call] gives the caller its own id back.  A payload with a
    non-empty string id is sent under the generated Number; when the
    node answers under that Number, with a truthy result or without an
    error, the promise resolves to the answer with the string id put
    back, result and error untouched, and the table is as before the
    call (the generated Number not being in use). *)
Theorem call_restores_the_id {R} (R_truthy : R → bool) (genId : Z) (s : string)
    (fetch : jsval → promise (envelope R)) (intIds : gmap Z jsval) (json : envelope R) :
  s ≠ "" → intIds !! genId = None →
  fetch (VNum genId) = Resolved json → e_id json = VNum genId →
  no_result R_truthy json = false ∨ e_error json = None →
  call R_truthy genId (VStr s) fetch intIds
  = (intIds, VNum genId, Resolved (Envelope (VStr s) (e_result json) (e_error json))).
Proof.
  intros Hs Hfresh Hfetch Hecho Hok.
  assert (Htruthy : truthy (VStr s) = true).
  { simpl. by destruct (String.eqb_spec s ""). }
  destruct (tryRestoreId_tryIntifyId genId (VStr s) intIds Htruthy eq_refl Hfresh)
    as [Hsent Hrestore].
  unfold call.
  destruct (tryIntifyId genId (VStr s) intIds) as [intIds1 sent]. simpl in *.
  subst sent. rewrite Hfetch, Hecho, Hrestore.
  destruct Hok as [-> | ->]; [reflexivity |].
  by destruct (no_result R_truthy json).
Qed.

Lemma call_restores_the_id_witness :
  call truthy 1700000000123 (VStr "req-7")
       (λ sent, Resolved (Envelope sent (Some (VStr "0x64")) None)) ∅
  = (∅, VNum 1700000000123, Resolved (Envelope (VStr "req-7") (Some (VStr "0x64")) None)).
Proof.
  apply (call_restores_the_id truthy 1700000000123 "req-7"
           (λ sent, Resolved (Envelope sent (Some (VStr "0x64")) None)) ∅
           (Envelope (VNum 1700000000123) (Some (VStr "0x64")) None));
    try reflexivity; [discriminate | by left].
Defined.

(** X21: an answer that has an error and no truthy result rejects the
    call with an [Error] whose message is the message of the error,
    "rpc error" when that is missing or falsy; [getBlockNumber] and
    [getBlockByNumber] are rejected with the same error.  The id is not
    restored on this path: for a string id the generated Number stays in
    the table. *)
Theorem call_rejects_error_answers {R} (R_truthy : R → bool) (genId : Z) (id : jsval)
    (fetch : jsval → promise (envelope R)) (intIds : gmap Z jsval)
    (json : envelope R) (message : jsval) :
  fetch (tryIntifyId genId id intIds).2 = Resolved json →
  no_result R_truthy json = true → e_error json = Some message →
  call R_truthy genId id fetch intIds
  = (tryIntifyId genId id intIds, Rejected (Error (error_message message))) ∧
  (id = VUndefined →
   call_result R_truthy genId fetch intIds
   = (intIds, Rejected (Error (error_message message)))) ∧
  (truthy id = true → is_number id = false →
   (call R_truthy genId id fetch intIds).1.1 !! genId = Some id).
Proof.
  intros Hfetch Hno Herr.
  assert (Hcall : call R_truthy genId id fetch intIds
                  = (tryIntifyId genId id intIds, Rejected (Error (error_message message)))).
  { unfold call. destruct (tryIntifyId genId id intIds) as [intIds1 sent]. simpl in *.
    by rewrite Hfetch, Hno, Herr. }
  split; [exact Hcall | split].
  - intros ->. unfold call_result. by rewrite Hcall.
  - intros Htruthy Hnum. rewrite Hcall. unfold tryIntifyId.
    rewrite Htruthy, Hnum. simpl. apply lookup_insert_eq.
Qed.

Lemma call_rejects_error_answers_witness :
  call_result truthy 42 (λ _, Resolved (Envelope VUndefined None (Some VUndefined))) ∅
  = (∅, Rejected (Error "rpc error")).
Proof.
  apply (call_rejects_error_answers truthy 42 VUndefined
           (λ _, Resolved (Envelope VUndefined None (Some VUndefined))) ∅
           (Envelope VUndefined None (Some VUndefined)) VUndefined);
    reflexivity.
Defined.

End Ids.

(** * Invariants of the registry and of the cursors *)

Section Registry.

Lemma create_state c rpc st :
  (create c rpc st).1.1 = st ∨
  ∃ options,
    filters (create c rpc st).1.1
      = <[1 := Filter (creation_type c) options 1]> (filters st) ∧
    (blockNumbers (create c rpc st).1.1 = blockNumbers st ∨
     ∃ h, blockNumbers (create c rpc st).1.1 = <[1 := h]> (blockNumbers st)).
Proof.
  destruct (well_formed c) eqn:Hwf.
  - right. destruct (rpc_getBlockNumber rpc) as [h | e] eqn:Hhead.
    + destruct (create_resolved c rpc st h Hhead Hwf) as (options & _ & _ & _ & ->).
      exists options. unfold with_blockNumbers. cbn [fst filters blockNumbers].
      rewrite _installFilter_filters, _installFilter_blockNumbers. eauto.
    + destruct (create_rejected c rpc st e Hhead Hwf) as (options & ->).
      exists options. cbn [fst].
      rewrite _installFilter_filters, _installFilter_blockNumbers. eauto.
  - left. destruct c as [params | |]; try discriminate.
    unfold well_formed in Hwf. simpl. unfold newFilter.
    by destruct (_normalizeFilter params).
Qed.

Lemma step_create ev st :
  match ev with
  | EvNewFilter params rpc => step ev st = (create (CreateLog params) rpc st).1.1
  | EvNewBlockFilter rpc => step ev st = (create CreateBlock rpc st).1.1
  | EvNewPendingTransactionFilter rpc => step ev st = (create CreatePendingTx rpc st).1.1
  | _ => True
  end.
Proof.
  destruct ev; simpl; try done.
  - by destruct (newBlockFilter rpc st) as [[st' p] calls].
  - by destruct (newPendingTransactionFilter rpc st) as [[st' p] calls].
Qed.

Lemma fire_state handle st :
  fire handle st = st ∨
  ∃ id, filters (fire handle st) = delete id (filters st) ∧
        blockNumbers (fire handle st) = delete id (blockNumbers st).
Proof.
  unfold fire. destruct (pending st !! handle) as [[id due] |]; [| by left].
  destruct (due <=? clock st); [| by left]. right. by exists id.
Qed.

(** X22: the registry never holds more than one filter: in every state
    the manager reaches, a registered filter is under id 1 and carries
    the id 1. *)
Theorem registry_holds_one_filter_at_most (evs : list event) (id : Z) (f : filter) :
  filters (run evs init) !! id = Some f → id = 1 ∧ f_id f = 1.
Proof.
  assert (Hrun : ∀ evs st,
            (∀ id f, filters st !! id = Some f → id = 1 ∧ f_id f = 1) →
            ∀ id f, filters (run evs st) !! id = Some f → id = 1 ∧ f_id f = 1).
  { clear. intros evs. induction evs as [| ev evs IH]; intros st Hst; [done |].
    simpl. apply IH. clear IH. intros id f.
    assert (Hcreate : ∀ c rpc, filters (create c rpc st).1.1 !! id = Some f →
                               id = 1 ∧ f_id f = 1).
    { intros c rpc. destruct (create_state c rpc st) as [-> | (options & -> & _)].
      - apply Hst.
      - intros Hl. apply lookup_insert_Some in Hl as [[<- <-] | [_ Hl]]; [done |].
        by apply Hst. }
    pose proof (step_create ev st) as Hev.
    destruct ev; try (rewrite Hev; apply Hcreate).
    - cbn [step]. rewrite uninstallFilter_filters.
      destruct (hexToInt filterId) as [| z | |]; simpl; try apply Hst.
      intros Hl. apply lookup_delete_Some in Hl as [_ Hl]. by apply Hst.
    - cbn [step]. destruct (getFilterChanges_frame filterId rpc st) as (-> & _). apply Hst.
    - cbn [step]. rewrite getFilterLogs_state. apply Hst.
    - cbn [step]. apply Hst.
    - cbn [step]. apply Hst.
    - cbn [step]. destruct (fire_state handle st) as [-> | (j & -> & _)]; [apply Hst |].
      intros Hl. apply lookup_delete_Some in Hl as [_ Hl]. by apply Hst. }
  apply Hrun. intros j g. unfold init. simpl. by rewrite lookup_empty.
Qed.

Lemma registry_holds_one_filter_at_most_witness :
  let evs := [EvNewFilter (RawParams None None AddressUndefined None) (node "0x64");
              EvNewBlockFilter (node "0x65")] in
  filters (run evs init) !! 1 = Some (Filter TBlock (OptString "latest") 1) ∧
  (1 = 1 ∧ f_id (Filter TBlock (OptString "latest") 1) = 1).
Proof.
  intros evs. split; [reflexivity |].
  apply (registry_holds_one_filter_at_most evs 1). reflexivity.
Defined.

(** X23: no cursor without a filter: as long as every call runs to
    completion before the next event, a cursor is stored only under the
    id of a registered filter, in every state the manager reaches.
    ([uninstallFilter] and the expiry delete the cursor with the filter;
    a poll moves a cursor but never adds one.) *)
Theorem cursors_belong_to_filters (evs : list event) (id : Z) :
  forallb is_atomic evs = true →
  is_Some (blockNumbers (run evs init) !! id) →
  is_Some (filters (run evs init) !! id).
Proof.
  assert (Hrun : ∀ evs st,
            forallb is_atomic evs = true →
            (∀ id, is_Some (blockNumbers st !! id) → is_Some (filters st !! id)) →
            ∀ id, is_Some (blockNumbers (run evs st) !! id) →
                  is_Some (filters (run evs st) !! id)).
  { clear. intros evs. induction evs as [| ev evs IH]; intros st Hall Hst; [done |].
    simpl in Hall. apply andb_true_iff in Hall as [Hev Hall].
    simpl. apply IH; [done |]. clear IH Hall. intros id.
    assert (Hcreate : ∀ c rpc, is_Some (blockNumbers (create c rpc st).1.1 !! id) →
                               is_Some (filters (create c rpc st).1.1 !! id)).
    { intros c rpc.
      destruct (create_state c rpc st) as [-> | (options & -> & [-> | [h ->]])].
      - apply Hst.
      - intros Hb. apply Hst in Hb. rewrite lookup_insert_is_Some.
        destruct (decide (1 = id)); [by left | by right].
      - rewrite !lookup_insert_is_Some. intros [-> | [? Hb]]; [by left |].
        right. split; [done |]. by apply Hst. }
    pose proof (step_create ev st) as Hstep.
    destruct ev; try discriminate; try (rewrite Hstep; apply Hcreate).
    - cbn [step]. rewrite uninstallFilter_filters, uninstallFilter_blockNumbers.
      destruct (hexToInt filterId) as [| z | |]; simpl; try apply Hst.
      rewrite !lookup_delete_is_Some. intros [? Hb]. split; [done |]. by apply Hst.
    - cbn [step]. destruct (getFilterChanges_frame filterId rpc st) as (-> & _).
      intros Hb. apply Hst.
      destruct (getFilterChanges_cursor filterId rpc st id) as [<- | (c & h & -> & _)];
        [done | eauto].
    - cbn [step]. rewrite getFilterLogs_state. apply Hst.
    - cbn [step]. apply Hst.
    - cbn [step]. destruct (fire_state handle st) as [-> | (j & -> & ->)]; [apply Hst |].
      rewrite !lookup_delete_is_Some. intros [? Hb]. split; [done |]. by apply Hst. }
  intros Hall. apply Hrun; [done |].
  intros j. unfold init. simpl. rewrite lookup_empty. by intros [? [=]].
Qed.

Lemma cursors_belong_to_filters_witness :
  let evs := [EvNewBlockFilter (node "0x64"); EvGetFilterChanges (VStr "0x1") (node "0x67")] in
  blockNumbers (run evs init) !! 1 = Some "0x67" ∧
  is_Some (filters (run evs init) !! 1).
Proof.
  intros evs. split; [reflexivity |].
  apply (cursors_belong_to_filters evs 1); [reflexivity |].
  exists "0x67". reflexivity.
Defined.

(** X24: [getFilterLogs] does not look at the type of the filter: for
    the filter that [newBlockFilter] or [newPendingTransactionFilter]
    just created it is not rejected, it sends one log query whose
    [fromBlock], [toBlock] and [topics] are [undefined], and relays the
    answer; the state is left as it is. *)
Theorem getFilterLogs_on_block_filter
    (c : creation) (rpc rpc' : RPCServer) (st : state) (h : string) :
  c = CreateBlock ∨ c = CreatePendingTx →
  rpc_getBlockNumber rpc = Resolved h →
  let st' := (create c rpc st).1.1 in
  let q := LogQuery VUndefined VUndefined None None None "" in
  getFilterLogs (VStr "0x1") rpc' st' = (st', rpc_getFilterLogs rpc' q, [GetFilterLogs q]).
Proof.
  intros Hc Hhead st' q.
  assert (Hwf : well_formed c = true) by (by destruct Hc as [-> | ->]).
  destruct (create_resolved c rpc st h Hhead Hwf) as (options & Hb & Hp & _ & Hr).
  assert (Hopt : ∃ s, options = OptString s).
  { destruct Hc as [-> | ->]; [rewrite Hb | rewrite Hp]; eauto. }
  destruct Hopt as [s ->].
  subst st'. rewrite Hr. cbn [fst]. unfold getFilterLogs.
  change (hexToInt (VStr "0x1")) with (VNum 1). cbn [Map_get].
  unfold with_blockNumbers. cbn [filters].
  by rewrite _installFilter_filters, lookup_insert_eq.
Qed.

Lemma getFilterLogs_on_block_filter_witness :
  let q := LogQuery VUndefined VUndefined None None None "" in
  getFilterLogs (VStr "0x1") (node "0x70") block_filter_at_100
  = (block_filter_at_100, Resolved ["log of undefined..undefined"], [GetFilterLogs q]).
Proof.
  apply (getFilterLogs_on_block_filter CreateBlock (node "0x64") (node "0x70") init "0x64");
    [by left | reflexivity].
Defined.

End Registry.
